(** * KycVerifier: the identity-document extraction pipeline

  A shallow embedding of the two React components of the repository
  (the TypeScript component with file upload and camera capture, and
  the plain JSX component with file upload only) together with the
  browser primitives they call: [String.prototype.replace] with a
  global literal pattern, [String.prototype.trim], [JSON.parse],
  [FileReader.readAsDataURL] and the truthiness rules behind [||] and
  [&&].

  Strings are sequences of UTF-16 code units, as in JavaScript. *)

From Stdlib Require Import List NArith ZArith Bool Lia String Ascii.
From Stdlib.Strings Require Import Byte.
Import ListNotations.

Local Open Scope N_scope.

(* ================================================================== *)
(** * JavaScript strings *)
(* ================================================================== *)

Module JsString.

(** A code unit; every function below treats values above [0xFFFF]
    like any other code unit without a special meaning. *)
Definition code_unit := N.

Definition jsstring := list code_unit.

(** ** String literals

    The literals of the source are written in UTF-8 in this file and
    decoded to UTF-16 code units by [js]. *)

Definition utf16_of_code_point (cp : N) : jsstring :=
  if cp <? 65536 then [cp]
  else [55296 + (cp - 65536) / 1024; 56320 + (cp - 65536) mod 1024].

Fixpoint utf8_decode (bs : list N) : jsstring :=
  match bs with
  | [] => []
  | b0 :: r0 =>
      if b0 <? 128 then b0 :: utf8_decode r0
      else if b0 <? 224 then
        match r0 with
        | b1 :: r1 =>
            utf16_of_code_point ((b0 - 192) * 64 + (b1 - 128)) ++ utf8_decode r1
        | [] => []
        end
      else if b0 <? 240 then
        match r0 with
        | b1 :: b2 :: r2 =>
            utf16_of_code_point
              ((b0 - 224) * 4096 + (b1 - 128) * 64 + (b2 - 128)) ++ utf8_decode r2
        | _ => []
        end
      else
        match r0 with
        | b1 :: b2 :: b3 :: r3 =>
            utf16_of_code_point
              ((b0 - 240) * 262144 + (b1 - 128) * 4096 + (b2 - 128) * 64 + (b3 - 128))
              ++ utf8_decode r3
        | _ => []
        end
  end.

Definition js (s : string) : jsstring :=
  utf8_decode (map N_of_ascii (list_ascii_of_string s)).

(** The quotation mark, which a literal of this file cannot hold. *)
Definition dquote : jsstring := [34].

Definition quoted (s : string) : jsstring := dquote ++ js s ++ dquote.

Definition newline : jsstring := [10].

Fixpoint eqb (a b : jsstring) : bool :=
  match a, b with
  | [], [] => true
  | x :: a', y :: b' => (x =? y) && eqb a' b'
  | _, _ => false
  end.

(** [is_empty s] is what [!s] computes on a string. *)
Definition is_empty (s : jsstring) : bool :=
  match s with [] => true | _ :: _ => false end.

(** ** [trim]

    The code units that [String.prototype.trim] strips: WhiteSpace and
    LineTerminator of ECMA-262. *)
Definition is_trim_space (c : code_unit) : bool :=
  (c =? 9) || (c =? 10) || (c =? 11) || (c =? 12) || (c =? 13) || (c =? 32)
  || (c =? 160) || (c =? 5760) || ((8192 <=? c) && (c <=? 8202))
  || (c =? 8232) || (c =? 8233) || (c =? 8239) || (c =? 8287)
  || (c =? 12288) || (c =? 65279).

(** A string of nothing but such code units. *)
Definition is_blank (w : jsstring) : bool := forallb is_trim_space w.

Fixpoint trimStart (s : jsstring) : jsstring :=
  match s with
  | [] => []
  | c :: s' => if is_trim_space c then trimStart s' else s
  end.

Definition trimEnd (s : jsstring) : jsstring := rev (trimStart (rev s)).

Definition trim (s : jsstring) : jsstring := trimEnd (trimStart s).

(** ** [replace] with a global literal pattern and an empty replacement

    [is_prefix p s] tells whether the pattern matches at the start of
    [s]. *)
Fixpoint is_prefix (p s : jsstring) : bool :=
  match p, s with
  | [], _ => true
  | _ :: _, [] => false
  | x :: p', y :: s' => (x =? y) && is_prefix p' s'
  end.

(** [remove_from skip p s]: the scan of [s.replace(/p/g, '')], left to
    right.  [skip] counts the code units of the current match that are
    still to be dropped; with none left, a match of [p] at the current
    position is dropped and the scan resumes after it, and any other
    code unit is kept. *)
Fixpoint remove_from (skip : nat) (p s : jsstring) : jsstring :=
  match s with
  | [] => []
  | c :: s' =>
      match skip with
      | S k => remove_from k p s'
      | O =>
          if is_prefix p s then remove_from (pred (List.length p)) p s'
          else c :: remove_from 0 p s'
      end
  end.

Definition remove_all (p s : jsstring) : jsstring := remove_from 0 p s.

(** The grave accent, and three of them: a Markdown code fence. *)
Definition grave : code_unit := 96.
Definition fence3 : jsstring := [grave; grave; grave].

(** ** [split]

    [split_on sep s] is [s.split(sep)] for a separator of one code
    unit. *)
Fixpoint split_on (sep : code_unit) (s : jsstring) : list jsstring :=
  match s with
  | [] => [[]]
  | c :: s' =>
      match split_on sep s' with
      | [] => [[]]
      | piece :: pieces =>
          if c =? sep then [] :: piece :: pieces
          else (c :: piece) :: pieces
      end
  end.

End JsString.

Import JsString.

(* ================================================================== *)
(** * JavaScript values *)
(* ================================================================== *)

Module JsValue.

(** A Number that was written as a decimal literal: the double nearest
    to [(-1)^negative * mantissa * 10^exponent].  The literal is kept
    exact; the only question the components ask of a Number is whether
    it is zero. *)
Record number : Type := mkNumber {
  negative : bool;
  mantissa : N;
  exponent : Z
}.

(** The values [JSON.parse] produces, and [undefined], which reading a
    missing property produces.  An object is kept as the members of
    its text, in the order of the text: it stands for the object whose
    property [k] is the value of the last member with key [k].  Only
    property reads are taken from it ([own_property]); in which order
    the object enumerates its keys is not modelled and no definition
    depends on it. *)
#[local] Set Warnings "-register-all".
Inductive value : Type :=
| VUndefined
| VNull
| VBool (b : bool)
| VNumber (n : number)
| VString (s : jsstring)
| VArray (elements : list value)
| VObject (properties : list (jsstring * value)).

(** A decimal rounds to [+0] or [-0] exactly when it is zero or at most
    [2^-1075], half the least positive double (the tie goes to the even
    neighbour, zero). *)
Definition number_is_zero (n : number) : bool :=
  (mantissa n =? 0)%N
  || ((exponent n <? 0)%Z
      && (Z.of_N (mantissa n) * 2 ^ 1075 <=? 10 ^ (- exponent n))%Z).

(** [ToBoolean] of ECMA-262 ([NaN] never comes out of [JSON.parse]). *)
Definition ToBoolean (v : value) : bool :=
  match v with
  | VUndefined | VNull => false
  | VBool b => b
  | VNumber n => negb (number_is_zero n)
  | VString s => negb (is_empty s)
  | VArray _ | VObject _ => true
  end.

(** [a || b] and [a && b]. *)
Definition js_or (a b : value) : value := if ToBoolean a then a else b.
Definition js_and (a b : value) : value := if ToBoolean a then b else a.

Definition is_object (v : value) : bool :=
  match v with VObject _ => true | _ => false end.

Fixpoint own_property (key : jsstring) (props : list (jsstring * value))
  : option value :=
  match props with
  | [] => None
  | (k, v) :: rest =>
      match own_property key rest with
      | Some later => Some later
      | None => if JsString.eqb key k then Some v else None
      end
  end.

End JsValue.

Import JsValue.

(* ================================================================== *)
(** * [JSON.parse] *)
(* ================================================================== *)

Module JSON.

Inductive result (A : Type) : Type :=
| Ok (a : A) (rest : jsstring)
| SyntaxError
| OutOfFuel.
Arguments Ok {A} a rest.
Arguments SyntaxError {A}.
Arguments OutOfFuel {A}.

(** JSON white space: tab, line feed, carriage return, space. *)
Definition is_ws (c : code_unit) : bool :=
  (c =? 9) || (c =? 10) || (c =? 13) || (c =? 32).

Fixpoint skip_ws (s : jsstring) : jsstring :=
  match s with
  | [] => []
  | c :: s' => if is_ws c then skip_ws s' else s
  end.

Fixpoint strip_prefix (p s : jsstring) : option jsstring :=
  match p, s with
  | [], _ => Some s
  | _ :: _, [] => None
  | x :: p', y :: s' => if x =? y then strip_prefix p' s' else None
  end.

(** ** Numbers *)

Definition is_digit (c : code_unit) : bool := (48 <=? c) && (c <=? 57).

(** The longest run of digits at the start of [s], as digit values. *)
Fixpoint take_digits (s : jsstring) : list N * jsstring :=
  match s with
  | [] => ([], [])
  | c :: s' =>
      if is_digit c then
        let (ds, rest) := take_digits s' in (c - 48 :: ds, rest)
      else ([], s)
  end.

Definition digits_value (ds : list N) : N :=
  fold_left (fun acc d => 10 * acc + d) ds 0.

(** int: a single [0], or a digit from 1 to 9 followed by digits. *)
Definition parse_int (s : jsstring) : option (list N * jsstring) :=
  match s with
  | [] => None
  | c :: s' =>
      if c =? 48 then Some ([0], s')
      else if is_digit c then Some (take_digits s)
      else None
  end.

(** frac: nothing, or a point followed by at least one digit. *)
Definition parse_frac (s : jsstring) : option (list N * jsstring) :=
  match s with
  | c :: s' =>
      if c =? 46 then
        match take_digits s' with
        | ([], _) => None
        | (ds, rest) => Some (ds, rest)
        end
      else Some ([], s)
  | [] => Some ([], s)
  end.

Definition parse_exp_digits (neg : bool) (s : jsstring) : option (Z * jsstring) :=
  match take_digits s with
  | ([], _) => None
  | (ds, rest) =>
      let e := Z.of_N (digits_value ds) in
      Some (if neg then (- e)%Z else e, rest)
  end.

(** exp: nothing, or [e] or [E], an optional sign and at least one
    digit. *)
Definition parse_exp (s : jsstring) : option (Z * jsstring) :=
  match s with
  | c :: s' =>
      if (c =? 101) || (c =? 69) then
        match s' with
        | sign :: s'' =>
            if sign =? 43 then parse_exp_digits false s''
            else if sign =? 45 then parse_exp_digits true s''
            else parse_exp_digits false s'
        | [] => None
        end
      else Some (0%Z, s)
  | [] => Some (0%Z, s)
  end.

Definition parse_unsigned (neg : bool) (s : jsstring) : option (number * jsstring) :=
  match parse_int s with
  | None => None
  | Some (int_ds, s1) =>
      match parse_frac s1 with
      | None => None
      | Some (frac_ds, s2) =>
          match parse_exp s2 with
          | None => None
          | Some (e, s3) =>
              Some (mkNumber neg (digits_value (int_ds ++ frac_ds))
                      (e - Z.of_nat (List.length frac_ds))%Z, s3)
          end
      end
  end.

Definition parse_number (s : jsstring) : option (number * jsstring) :=
  match s with
  | c :: s' => if c =? 45 then parse_unsigned true s' else parse_unsigned false s
  | [] => None
  end.

(** ** Strings *)

Definition hex_digit (c : code_unit) : option N :=
  if is_digit c then Some (c - 48)
  else if (97 <=? c) && (c <=? 102) then Some (c - 87)
  else if (65 <=? c) && (c <=? 70) then Some (c - 55)
  else None.

Definition hex4 (a b c d : code_unit) : option code_unit :=
  match hex_digit a, hex_digit b, hex_digit c, hex_digit d with
  | Some x, Some y, Some z, Some w => Some (((x * 16 + y) * 16 + z) * 16 + w)
  | _, _, _, _ => None
  end.

(** The character an escape letter stands for. *)
Definition simple_escape (c : code_unit) : option code_unit :=
  if (c =? 34) || (c =? 92) || (c =? 47) then Some c
  else if c =? 98 then Some 8
  else if c =? 102 then Some 12
  else if c =? 110 then Some 10
  else if c =? 114 then Some 13
  else if c =? 116 then Some 9
  else None.

Definition cons_char (c : code_unit) (r : option (jsstring * jsstring))
  : option (jsstring * jsstring) :=
  match r with
  | Some (body, rest) => Some (c :: body, rest)
  | None => None
  end.

(** The text after an opening quotation mark, up to the closing one. *)
Fixpoint parse_string_body (s : jsstring) : option (jsstring * jsstring) :=
  match s with
  | [] => None
  | c :: r =>
      if c =? 34 then Some ([], r)
      else if c =? 92 then
        match r with
        | [] => None
        | e :: r1 =>
            if e =? 117 then
              match r1 with
              | h1 :: h2 :: h3 :: h4 :: r2 =>
                  match hex4 h1 h2 h3 h4 with
                  | Some u => cons_char u (parse_string_body r2)
                  | None => None
                  end
              | _ => None
              end
            else
              match simple_escape e with
              | Some u => cons_char u (parse_string_body r1)
              | None => None
              end
        end
      else if c <? 32 then None
      else cons_char c (parse_string_body r)
  end.

Definition of_option {A B} (f : A -> B) (r : option (A * jsstring)) : result B :=
  match r with
  | Some (a, rest) => Ok (f a) rest
  | None => SyntaxError
  end.

Definition parse_literal (s : jsstring) : result value :=
  match strip_prefix (js "true") s with
  | Some rest => Ok (VBool true) rest
  | None =>
      match strip_prefix (js "false") s with
      | Some rest => Ok (VBool false) rest
      | None =>
          match strip_prefix (js "null") s with
          | Some rest => Ok VNull rest
          | None => SyntaxError
          end
      end
  end.

(** ** Values

    A recursive-descent parser of the JSON grammar.  Every call spends
    one unit of fuel. *)
Fixpoint parse_value (fuel : nat) (s : jsstring) {struct fuel} : result value :=
  match fuel with
  | O => OutOfFuel
  | S fuel' =>
      match skip_ws s with
      | [] => SyntaxError
      | c :: r =>
          if c =? 123 then
            match skip_ws r with
            | [] => SyntaxError
            | d :: r' =>
                if d =? 125 then Ok (VObject []) r'
                else
                  match parse_members fuel' (d :: r') [] with
                  | Ok props rest => Ok (VObject props) rest
                  | SyntaxError => SyntaxError
                  | OutOfFuel => OutOfFuel
                  end
            end
          else if c =? 91 then
            match skip_ws r with
            | [] => SyntaxError
            | d :: r' =>
                if d =? 93 then Ok (VArray []) r'
                else
                  match parse_elements fuel' (d :: r') [] with
                  | Ok vs rest => Ok (VArray vs) rest
                  | SyntaxError => SyntaxError
                  | OutOfFuel => OutOfFuel
                  end
            end
          else if c =? 34 then of_option VString (parse_string_body r)
          else if (c =? 45) || is_digit c then of_option VNumber (parse_number (c :: r))
          else parse_literal (c :: r)
      end
  end

(** elements: a value, then a comma and more elements or the closing
    bracket. *)
with parse_elements (fuel : nat) (s : jsstring) (acc : list value) {struct fuel}
  : result (list value) :=
  match fuel with
  | O => OutOfFuel
  | S fuel' =>
      match parse_value fuel' s with
      | Ok v r =>
          match skip_ws r with
          | [] => SyntaxError
          | c :: r' =>
              if c =? 44 then parse_elements fuel' r' (acc ++ [v])
              else if c =? 93 then Ok (acc ++ [v]) r'
              else SyntaxError
          end
      | SyntaxError => SyntaxError
      | OutOfFuel => OutOfFuel
      end
  end

(** members: a string, a colon and a value, then a comma and more
    members or the closing brace. *)
with parse_members (fuel : nat) (s : jsstring) (acc : list (jsstring * value))
       {struct fuel} : result (list (jsstring * value)) :=
  match fuel with
  | O => OutOfFuel
  | S fuel' =>
      match skip_ws s with
      | [] => SyntaxError
      | q :: r0 =>
          if q =? 34 then
            match parse_string_body r0 with
            | None => SyntaxError
            | Some (key, r1) =>
                match skip_ws r1 with
                | [] => SyntaxError
                | colon :: r2 =>
                    if colon =? 58 then
                      match parse_value fuel' r2 with
                      | Ok v r3 =>
                          match skip_ws r3 with
                          | [] => SyntaxError
                          | c :: r4 =>
                              if c =? 44 then parse_members fuel' r4 (acc ++ [(key, v)])
                              else if c =? 125 then Ok (acc ++ [(key, v)]) r4
                              else SyntaxError
                          end
                      | SyntaxError => SyntaxError
                      | OutOfFuel => OutOfFuel
                      end
                    else SyntaxError
                end
            end
          else SyntaxError
      end
  end.

(** Fuel that the parser never exhausts on [s]. *)
Definition fuel_for (s : jsstring) : nat := 2 * List.length s + 1.

(** The whole text must be one value between optional white space. *)
Definition parse_text (s : jsstring) : result value :=
  match parse_value (fuel_for s) s with
  | Ok v rest =>
      match skip_ws rest with
      | [] => Ok v []
      | _ :: _ => SyntaxError
      end
  | SyntaxError => SyntaxError
  | OutOfFuel => OutOfFuel
  end.

(** [JSON.parse(s)]: the value, or [None] where it throws a
    [SyntaxError]. *)
Definition parse (s : jsstring) : option value :=
  match parse_text s with
  | Ok v _ => Some v
  | _ => None
  end.

End JSON.

(* ================================================================== *)
(** * Files and [FileReader.readAsDataURL] *)
(* ================================================================== *)

Module Base64.

(** The alphabet of RFC 4648, section 4. *)
Definition char_of_sextet (i : N) : code_unit :=
  if i <? 26 then 65 + i
  else if i <? 52 then 97 + (i - 26)
  else if i <? 62 then 48 + (i - 52)
  else if i =? 62 then 43
  else 47.

Definition sextet_of_char (c : code_unit) : option N :=
  if (65 <=? c) && (c <=? 90) then Some (c - 65)
  else if (97 <=? c) && (c <=? 122) then Some (c - 97 + 26)
  else if (48 <=? c) && (c <=? 57) then Some (c - 48 + 52)
  else if c =? 43 then Some 62
  else if c =? 47 then Some 63
  else None.

Definition pad : code_unit := 61.

(** Three bytes make four characters; a last group of one or two
    bytes is padded with [=]. *)
Fixpoint encode (bs : list byte) : jsstring :=
  match bs with
  | [] => []
  | [a] =>
      let n := Byte.to_N a in
      [char_of_sextet (n / 4); char_of_sextet (n mod 4 * 16); pad; pad]
  | [a; b] =>
      let n := Byte.to_N a * 256 + Byte.to_N b in
      [char_of_sextet (n / 1024); char_of_sextet (n / 16 mod 64);
       char_of_sextet (n mod 16 * 4); pad]
  | a :: b :: c :: rest =>
      let n := Byte.to_N a * 65536 + Byte.to_N b * 256 + Byte.to_N c in
      char_of_sextet (n / 262144) :: char_of_sextet (n / 4096 mod 64)
        :: char_of_sextet (n / 64 mod 64) :: char_of_sextet (n mod 64)
        :: encode rest
  end.

Definition bytes_of (count : nat) (n : N) : option (list byte) :=
  match count with
  | 1%nat => option_map (fun a => [a]) (Byte.of_N (n / 65536))
  | 2%nat =>
      match Byte.of_N (n / 65536), Byte.of_N (n / 256 mod 256) with
      | Some a, Some b => Some [a; b]
      | _, _ => None
      end
  | _ =>
      match Byte.of_N (n / 65536), Byte.of_N (n / 256 mod 256),
            Byte.of_N (n mod 256) with
      | Some a, Some b, Some c => Some [a; b; c]
      | _, _, _ => None
      end
  end.

Definition group (x y z w : N) : N := ((x * 64 + y) * 64 + z) * 64 + w.

(** The decoder a receiver of the payload would run: groups of four
    characters, padding only in the last group. *)
Fixpoint decode (s : jsstring) : option (list byte) :=
  match s with
  | [] => Some []
  | c0 :: c1 :: c2 :: c3 :: rest =>
      match sextet_of_char c0, sextet_of_char c1 with
      | Some x, Some y =>
          if c3 =? pad then
            match rest with
            | [] =>
                if c2 =? pad then bytes_of 1 (group x y 0 0)
                else
                  match sextet_of_char c2 with
                  | Some z => bytes_of 2 (group x y z 0)
                  | None => None
                  end
            | _ :: _ => None
            end
          else
            match sextet_of_char c2, sextet_of_char c3 with
            | Some z, Some w =>
                match bytes_of 3 (group x y z w), decode rest with
                | Some front, Some back => Some (front ++ back)
                | _, _ => None
                end
            | _, _ => None
            end
      | _, _ => None
      end
  | _ => None
  end.

End Base64.

Module Browser.

Record Blob : Type := mkBlob {
  blob_bytes : list byte;
  blob_type : jsstring
}.

(** [new File([blob], name, { type })] *)
Record File : Type := mkFile {
  file_bytes : list byte;
  file_name : jsstring;
  file_type : jsstring
}.

(** The media type written into a data URL: the file's type, and
    [application/octet-stream] for a file without one. *)
Definition media_type_text (type : jsstring) : jsstring :=
  if is_empty type then js "application/octet-stream" else type.

(** The string [FileReader.readAsDataURL] leaves in [reader.result]
    when the read completes: a data URL (RFC 2397) of the file's type
    and base64 content.  A host may write a type that is not of the
    plain form type/subtype differently (quoting a parameter, say);
    that changes the text before the last comma only, and the theorems
    below read the data of files whose type holds no comma. *)
Definition readAsDataURL (file : File) : jsstring :=
  js "data:" ++ media_type_text (file_type file) ++ js ";base64,"
  ++ Base64.encode (file_bytes file).

End Browser.

Import Browser.

(* ================================================================== *)
(** * The component *)
(* ================================================================== *)

Module KycVerifier.

(** The two components of the repository: the TypeScript one asks for
    name, surname, nationality and birth date; the JSX one for
    nationality and age. *)
Inductive variant : Type :=
| Detailed
| Summary.

(** ** State

    The [useState] cells.  [extractedData] holds whatever
    [JSON.parse] returned, or [null].  [useWebcam] belongs to the
    TypeScript component; the JSX component has no such cell and none
    of its handlers touches it. *)
Record Session : Type := mkSession {
  image : option File;
  extractedData : value;
  loading : bool;
  error : option jsstring;
  useWebcam : bool
}.

(** [useState(null)], [useState(null)], [useState(false)],
    [useState(null)], [useState(false)] *)
Definition initial : Session := mkSession None VNull false None false.

Record InlineData : Type := mkInlineData {
  data : option jsstring;
  mimeType : jsstring
}.

Record GenerativePart : Type := mkPart {
  inlineData : InlineData
}.

(** The argument of [model.generateContent]: [[prompt, imagePart]]. *)
Record ExtractionRequest : Type := mkRequest {
  instructionText : jsstring;
  imagePart : GenerativePart
}.

(** What the [catch] clause receives. *)
Inductive exn : Type :=
| InferenceFailure
| JsonSyntaxError.

Inductive event : Type :=
| NetworkCall (req : ExtractionRequest)
| ConsoleError (e : exn).

(** The collaborators outside the component: the remote model (the
    text of its completion, or [None] when the call is rejected or the
    response has no text), the camera widget's [getScreenshot] and
    [fetch] applied to the screenshot's data URL. *)
Record Env : Type := mkEnv {
  generateContent : ExtractionRequest -> option jsstring;
  getScreenshot : option jsstring;
  fetch_blob : jsstring -> option Blob
}.

(** ** Handlers as state transformers that may throw and that log
    their calls *)

Inductive outcome (A : Type) : Type :=
| Returned (a : A)
| Threw (e : exn).
Arguments Returned {A} a.
Arguments Threw {A} e.

Definition M (A : Type) : Type := Session -> outcome A * Session * list event.

Definition ret {A} (a : A) : M A := fun s => (Returned a, s, []).

Definition bind {A B} (m : M A) (k : A -> M B) : M B :=
  fun s =>
    match m s with
    | (Returned a, s1, t1) =>
        match k a s1 with
        | (o, s2, t2) => (o, s2, t1 ++ t2)
        end
    | (Threw e, s1, t1) => (Threw e, s1, t1)
    end.

Definition throw {A} (e : exn) : M A := fun s => (Threw e, s, []).

Definition emit (ev : event) : M unit := fun s => (Returned tt, s, [ev]).

(** [try { body } catch (e) { handler } finally { finalizer }]; neither
    clause of the components throws. *)
Definition try_catch_finally (body : M unit) (handler : exn -> M unit)
  (finalizer : M unit) : M unit :=
  fun s =>
    match body s with
    | (Returned _, s1, t1) =>
        match finalizer s1 with
        | (o, s2, t2) => (o, s2, t1 ++ t2)
        end
    | (Threw e, s1, t1) =>
        match bind (handler e) (fun _ => finalizer) s1 with
        | (o, s2, t2) => (o, s2, t1 ++ t2)
        end
    end.

Declare Scope kyc_scope.
Delimit Scope kyc_scope with kyc.
Notation "x <- m ;; k" := (bind m (fun x => k))
  (at level 61, m at next level, right associativity) : kyc_scope.
Notation "m ;; k" := (bind m (fun _ => k))
  (at level 61, right associativity) : kyc_scope.
Local Open Scope kyc_scope.

Definition setImage (f : option File) : M unit :=
  fun s => (Returned tt,
            mkSession f (extractedData s) (loading s) (error s) (useWebcam s), []).

Definition setExtractedData (d : value) : M unit :=
  fun s => (Returned tt,
            mkSession (image s) d (loading s) (error s) (useWebcam s), []).

Definition setLoading (b : bool) : M unit :=
  fun s => (Returned tt,
            mkSession (image s) (extractedData s) b (error s) (useWebcam s), []).

Definition setError (e : option jsstring) : M unit :=
  fun s => (Returned tt,
            mkSession (image s) (extractedData s) (loading s) e (useWebcam s), []).

Definition setUseWebcam (b : bool) : M unit :=
  fun s => (Returned tt,
            mkSession (image s) (extractedData s) (loading s) (error s) b, []).

Definition final_state {A} (r : outcome A * Session * list event) : Session :=
  snd (fst r).

Definition trace {A} (r : outcome A * Session * list event) : list event :=
  snd r.

Definition is_network_call (ev : event) : bool :=
  match ev with NetworkCall _ => true | ConsoleError _ => false end.

Definition network_calls {A} (r : outcome A * Session * list event) : list event :=
  filter is_network_call (trace r).

(** ** Messages and prompts *)

Definition no_image_message : jsstring :=
  js "Por favor, selecciona una imagen primero.".

Definition processing_error_message : jsstring :=
  js "Ocurrió un error al procesar la imagen. Asegúrate de que la imagen sea clara y que la API key sea correcta.".

Definition join_lines (lines : list jsstring) : jsstring :=
  match lines with
  | [] => []
  | first :: others => first ++ flat_map (fun l => newline ++ l) others
  end.

Definition detailed_prompt : jsstring :=
  join_lines
  [ [];
    js "      Analiza la imagen de este documento de identidad (DNI). Extrae únicamente los siguientes datos y devuélvelos en formato JSON. No incluyas ninguna otra explicación o texto introductorio, solo el objeto JSON.";
    js "      1.  nombre (string)";
    js "      2.  apellido (string)";
    js "      3.  nacionalidad (string) el código de país ISO 3166-1 alfa-2. Por ejemplo: AR para Argentina, US para Estados Unidos.";
    js "      4.  fechaNacimiento (string) en formato YYYY-MM-DD.";
    [];
    js "      Ejemplo de respuesta:";
    js "      {";
    js "        " ++ quoted "nombre" ++ js ": " ++ quoted "Juan" ++ js ",";
    js "        " ++ quoted "apellido" ++ js ": " ++ quoted "Perez" ++ js ",";
    js "        " ++ quoted "nacionalidad" ++ js ": " ++ quoted "AR" ++ js ",";
    js "        " ++ quoted "fechaNacimiento" ++ js ": " ++ quoted "1990-05-15";
    js "      }";
    js "      " ].

Definition summary_prompt : jsstring :=
  js "Analiza la imagen de este documento de identidad. Extrae únicamente la nacionalidad y la edad de la persona. Devuelve la información exclusivamente en formato JSON con las claves "
  ++ quoted "nacionalidad" ++ js " y " ++ quoted "edad"
  ++ js ". Por ejemplo: {" ++ quoted "nacionalidad" ++ js ": " ++ quoted "Mexicana"
  ++ js ", " ++ quoted "edad"
  ++ js ": 30}. Si un dato no se puede encontrar, establécelo como null.".

Definition prompt (v : variant) : jsstring :=
  match v with
  | Detailed => detailed_prompt
  | Summary => summary_prompt
  end.

(** ** [fileToGenerativePart]

    [reader.result.split(',')[1]] paired with [file.type]: the part the
    promise settles with when the read completes.  When the read fails,
    [reader.result] is [null], [onloadend] throws and [resolve] is never
    called: the promise never settles.  That run is not a value of this
    function; it is the event [FileReadFails] of the module
    [Interleaving]. *)
Definition fileToGenerativePart (file : File) : GenerativePart :=
  let result := readAsDataURL file in
  let base64EncodedData := nth_error (split_on 44 result) 1 in
  mkPart (mkInlineData base64EncodedData (file_type file)).

(** ** [handleImageChange]

    [file] is [e.target.files?.[0]]. *)
Definition handleImageChange (file : option File) : M unit :=
  match file with
  | Some f =>
      setImage (Some f) ;;
      setExtractedData VNull ;;
      setError None
  | None => ret tt
  end.

(** ** [handleVerifyClick]

    The handler run in one piece, for a file read that completes. *)

Definition fence_json : jsstring := js "```json".
Definition fence : jsstring := js "```".

(** [text.replace(/```json/g, '').replace(/```/g, '').trim()] *)
Definition clean_response (text : jsstring) : jsstring :=
  trim (remove_all fence (remove_all fence_json text)).

(** The Response Parser: cleaning followed by [JSON.parse]. *)
Definition parse_response (text : jsstring) : option value :=
  JSON.parse (clean_response text).

(** [model.generateContent(...)], [result.response] and
    [response.text()]: one request goes out, and a text or a failure
    comes back. *)
Definition request_completion (env : Env) (req : ExtractionRequest) : M jsstring :=
  emit (NetworkCall req) ;;
  match generateContent env req with
  | Some text => ret text
  | None => throw InferenceFailure
  end.

Definition JSON_parse (s : jsstring) : M value :=
  match JSON.parse s with
  | Some v => ret v
  | None => throw JsonSyntaxError
  end.

Definition handleVerifyClick (v : variant) (env : Env) : M unit :=
  fun s =>
    match image s with
    | None => setError (Some no_image_message) s
    | Some img =>
        (setLoading true ;;
         setError None ;;
         setExtractedData VNull ;;
         try_catch_finally
           (let imagePart := fileToGenerativePart img in
            text <- request_completion env (mkRequest (prompt v) imagePart) ;;
            let jsonString := clean_response text in
            parsedData <- JSON_parse jsonString ;;
            setExtractedData parsedData)
           (fun e =>
              emit (ConsoleError e) ;;
              setError (Some processing_error_message))
           (setLoading false)) s
    end.

(** ** [captureImage] (TypeScript component only)

    Runs when the screenshot is a non-empty string and its [fetch]
    and [blob()] succeed. *)
Definition captureImage (env : Env) : M unit :=
  match getScreenshot env with
  | Some imageSrc =>
      if is_empty imageSrc then ret tt
      else
        match fetch_blob env imageSrc with
        | Some blob =>
            let file :=
              mkFile (blob_bytes blob) (js "webcam-capture.jpg") (js "image/jpeg") in
            setImage (Some file) ;;
            setUseWebcam false
        | None => ret tt
        end
  | None => ret tt
  end.

(** ** What is rendered *)

(** [disabled={!image || loading}] *)
Definition verify_button_disabled (s : Session) : bool :=
  match image s with
  | None => true
  | Some _ => loading s
  end.

(** A click on the verify button: a disabled button fires no
    [onClick]. *)
Definition clickVerify (v : variant) (env : Env) : M unit :=
  fun s =>
    if verify_button_disabled s then ret tt s
    else handleVerifyClick v env s.

(** [{error && <div>{error}</div>}]: the message shown, if any. *)
Definition error_view (s : Session) : option jsstring :=
  match error s with
  | Some msg => if is_empty msg then None else Some msg
  | None => None
  end.

(** [d.key] for a key that no built-in prototype defines, on a value
    that is neither [null] nor [undefined].  The keys the components
    read ([nombre], [apellido], [nacionalidad], [fechaNacimiento],
    [edad]) are such keys; for a key that is an own property of an
    object the answer is right whatever the key. *)
Definition get (d : value) (key : jsstring) : value :=
  match d with
  | VObject props =>
      match own_property key props with
      | Some v => v
      | None => VUndefined
      end
  | _ => VUndefined
  end.

(** One line of the results panel:
    [<strong>label</strong> {extractedData.key || fallback}].  [shown]
    is the value of the expression between the braces; what React
    writes for it is [Display.render_child]. *)
Record row : Type := mkRow {
  label : jsstring;
  shown : value
}.

Definition field_row (d : value) (lbl key fallback : string) : row :=
  mkRow (js lbl) (js_or (get d (js key)) (VString (js fallback))).

Definition result_rows (v : variant) (d : value) : list row :=
  match v with
  | Detailed =>
      [ field_row d "Nombre:" "nombre" "No encontrado";
        field_row d "Apellido:" "apellido" "No encontrado";
        field_row d "Nacionalidad:" "nacionalidad" "No encontrada";
        field_row d "Fecha de Nacimiento:" "fechaNacimiento" "No encontrada" ]
  | Summary =>
      [ field_row d "Nacionalidad:" "nacionalidad" "No encontrada";
        field_row d "Edad:" "edad" "No encontrada" ]
  end.

(** [{extractedData && (<div> ... </div>)}]: the panel when
    [extractedData] is truthy, the falsy value itself otherwise.  This
    is the value of the expression; what React writes for it is
    [Display.display_results]. *)
Inductive results_view : Type :=
| NoPanel (falsy : value)
| ResultsPanel (rows : list row).

Definition render_results (v : variant) (s : Session) : results_view :=
  if ToBoolean (extractedData s) then ResultsPanel (result_rows v (extractedData s))
  else NoPanel (extractedData s).

(** ** Vocabulary of the specification

    The request one attempt sends for an image. *)
Definition request_for (v : variant) (img : File) : ExtractionRequest :=
  mkRequest (prompt v) (fileToGenerativePart img).

(** The state machine of one verification attempt, read off the
    session: in progress while [loading]; otherwise failed when an
    error is held, succeeded when a result is held, idle when neither
    is. *)
Inductive attempt : Type :=
| Idle
| Dispatched
| Succeeded (payload : value)
| Failed (message : jsstring).

Definition attempt_of (s : Session) : attempt :=
  if loading s then Dispatched
  else
    match error s with
    | Some msg => Failed msg
    | None =>
        match extractedData s with
        | VNull => Idle
        | d => Succeeded d
        end
    end.

(** A field that is [null] or absent. *)
Definition is_missing (v : value) : bool :=
  match v with
  | VNull | VUndefined => true
  | _ => false
  end.


(** A fenced response: the payload between an opening fence with the
    language tag and a closing fence, with blanks around each. *)
Definition fenced (w1 w2 payload w3 w4 : jsstring) : jsstring :=
  w1 ++ fence_json ++ w2 ++ payload ++ w3 ++ fence ++ w4.

End KycVerifier.

(* ================================================================== *)
(** * Sample sessions and responses *)
(* ================================================================== *)

Module Samples.
Import KycVerifier.

Definition sample_file : File :=
  mkFile [x4d; x61; x6e] (js "dni.png") (js "image/png").

(** A remote model that answers every request alike, and no camera. *)
Definition env_answering (completion : option jsstring) : Env :=
  mkEnv (fun _ => completion) None (fun _ => None).

(** [fetch] of a base64 data URL, as far as the samples need it. *)
Definition fetch_data_url (src : jsstring) : option Blob :=
  match split_on 44 src with
  | [_; payload] =>
      option_map (fun bs => mkBlob bs (js "image/jpeg")) (Base64.decode payload)
  | _ => None
  end.

(** A camera whose screenshot is a small JPEG data URL. *)
Definition env_camera : Env :=
  mkEnv (fun _ => None) (Some (js "data:image/jpeg;base64,/9j/")) fetch_data_url.

Definition session_with_image : Session :=
  final_state (handleImageChange (Some sample_file) initial).

(** An attempt in flight: the state rendered after the synchronous part
    of [handleVerifyClick]. *)
Definition session_in_flight : Session :=
  mkSession (Some sample_file) VNull true None false.

Definition member (key : string) (v : jsstring) : jsstring :=
  quoted key ++ js ":" ++ v.

(** The worked example of the prompt. *)
Definition full_response : jsstring :=
  js "{" ++ member "nombre" (quoted "Juan") ++ js ","
  ++ member "apellido" (quoted "Perez") ++ js ","
  ++ member "nacionalidad" (quoted "AR") ++ js ","
  ++ member "fechaNacimiento" (quoted "1990-05-15") ++ js "}".

(** A name that is present but empty, a surname that is [null], no
    birth date. *)
Definition partial_response : jsstring :=
  js "{" ++ member "nombre" (dquote ++ dquote) ++ js ","
  ++ member "apellido" (js "null") ++ js ","
  ++ member "nacionalidad" (quoted "AR") ++ js "}".



Definition object_of (text : jsstring) : value :=
  match JSON.parse text with
  | Some d => d
  | None => VUndefined
  end.

End Samples.

(* ================================================================== *)
(** * More of the component: what else is rendered *)
(* ================================================================== *)

Module JsStringMore.

(** [s.includes(p)] *)
Fixpoint includes (p s : jsstring) : bool :=
  is_prefix p s
  || match s with
     | [] => false
     | _ :: s' => includes p s'
     end.

(** The number of grave accents a string starts with. *)
Fixpoint leading_graves (s : jsstring) : nat :=
  match s with
  | [] => 0
  | c :: s' => if c =? grave then S (leading_graves s') else 0
  end.

End JsStringMore.

Import JsStringMore.

Module View.
Import KycVerifier.

(** [{loading ? 'Verificando...' : 'Verificar Identidad'}] *)
Definition verify_button_label (s : Session) : jsstring :=
  if loading s then js "Verificando..." else js "Verificar Identidad".

(** The [cursor] of the verify button: the TypeScript component has
    [image && !loading ? 'pointer' : 'not-allowed'], the JSX component
    the constant ['pointer']. *)
Definition verify_button_cursor (v : variant) (s : Session) : jsstring :=
  match v with
  | Detailed =>
      match image s with
      | Some _ => if negb (loading s) then js "pointer" else js "not-allowed"
      | None => js "not-allowed"
      end
  | Summary => js "pointer"
  end.

(** The two areas of the TypeScript component, [!useWebcam ? ... : ...];
    the JSX component has the file input only. *)
Inductive source_area : Type :=
| UploadArea
| CameraArea.

Definition rendered_area (v : variant) (s : Session) : source_area :=
  match v with
  | Detailed => if negb (useWebcam s) then UploadArea else CameraArea
  | Summary => UploadArea
  end.

Definition file_input_rendered (v : variant) (s : Session) : bool :=
  match rendered_area v s with UploadArea => true | CameraArea => false end.

Definition capture_button_rendered (v : variant) (s : Session) : bool :=
  match rendered_area v s with UploadArea => false | CameraArea => true end.

(** The image of the preview: [{image && !useWebcam && <img/>}] in the
    TypeScript component, [{image && <img/>}] in the JSX one. *)
Definition preview (v : variant) (s : Session) : option File :=
  match v with
  | Detailed =>
      match image s with
      | Some f => if negb (useWebcam s) then Some f else None
      | None => None
      end
  | Summary => image s
  end.

End View.

(* ================================================================== *)
(** * What React writes into the document *)
(* ================================================================== *)

Module Display.
Import KycVerifier.

(** The text of a string child, or the text [String(n)] of a number
    child. *)
Inductive text_node : Type :=
| TextOf (s : jsstring)
| NumberOf (n : number).

(** The text nodes React writes for a child, or [None] where it throws
    (a plain object is not a valid child).  [null], [undefined], the
    booleans and the empty string write nothing; an array writes its
    items one after another. *)
Fixpoint render_child (v : value) : option (list text_node) :=
  match v with
  | VUndefined | VNull | VBool _ => Some []
  | VNumber n => Some [NumberOf n]
  | VString s => if is_empty s then Some [] else Some [TextOf s]
  | VArray items =>
      (fix each (l : list value) : option (list text_node) :=
         match l with
         | [] => Some []
         | x :: rest =>
             match render_child x, each rest with
             | Some a, Some b => Some (a ++ b)
             | _, _ => None
             end
         end) items
  | VObject _ => None
  end.

(** A row as displayed: its label and the text beside it. *)
Definition display_row (r : row) : option (jsstring * list text_node) :=
  match render_child (shown r) with
  | Some nodes => Some (label r, nodes)
  | None => None
  end.

Fixpoint display_rows (rows : list row) : option (list (jsstring * list text_node)) :=
  match rows with
  | [] => Some []
  | r :: rest =>
      match display_row r, display_rows rest with
      | Some a, Some b => Some (a :: b)
      | _, _ => None
      end
  end.

Inductive results_display : Type :=
| NothingDisplayed
| TextDisplayed (nodes : list text_node)
| PanelDisplayed (rows : list (jsstring * list text_node)).

(** What the page displays for [{extractedData && ...}], or [None]
    where the render throws. *)
Definition display_results (v : variant) (s : Session) : option results_display :=
  match render_results v s with
  | NoPanel falsy =>
      match render_child falsy with
      | Some [] => Some NothingDisplayed
      | Some nodes => Some (TextDisplayed nodes)
      | None => None
      end
  | ResultsPanel rows =>
      match display_rows rows with
      | Some displayed => Some (PanelDisplayed displayed)
      | None => None
      end
  end.

(** The fields the results panel reads, with the label and the
    fallback of each row. *)
Record field : Type := mkField {
  field_label : string;
  field_key : string;
  field_fallback : string
}.

Definition expected_fields (v : variant) : list field :=
  match v with
  | Detailed =>
      [ mkField "Nombre:" "nombre" "No encontrado";
        mkField "Apellido:" "apellido" "No encontrado";
        mkField "Nacionalidad:" "nacionalidad" "No encontrada";
        mkField "Fecha de Nacimiento:" "fechaNacimiento" "No encontrada" ]
  | Summary =>
      [ mkField "Nacionalidad:" "nacionalidad" "No encontrada";
        mkField "Edad:" "edad" "No encontrada" ]
  end.

Definition row_of (d : value) (f : field) : row :=
  field_row d (field_label f) (field_key f) (field_fallback f).

(** A field of the kinds the prompts ask for, or none: [null], absent,
    a string or a number. *)
Definition is_text_or_missing (v : value) : bool :=
  match v with
  | VUndefined | VNull | VString _ | VNumber _ => true
  | _ => false
  end.

(** The text a row is to show, in the words of the specification as
    amended: the fallback for a field that is [null], absent, the empty
    string or a zero, and otherwise the string or the number
    received. *)
Definition expected_text (d : value) (f : field) : list text_node :=
  match get d (js (field_key f)) with
  | VString s => if is_empty s then [TextOf (js (field_fallback f))] else [TextOf s]
  | VNumber n =>
      if number_is_zero n then [TextOf (js (field_fallback f))] else [NumberOf n]
  | _ => [TextOf (js (field_fallback f))]
  end.

End Display.

(* ================================================================== *)
(** * The handlers in time *)
(* ================================================================== *)

(** [handleVerifyClick] and [captureImage] are asynchronous: each runs
    up to its first suspension inside the click, and the rest in later
    turns of the event loop, between which other events of the page are
    handled.  A world is the session together with the attempts and the
    captures that are under way. *)
Module Interleaving.
Import KycVerifier View.

Local Open Scope kyc_scope.

(** An attempt waits first for [FileReader], then for the model.  An
    attempt whose read failed waits for ever: its promise never
    settles. *)
Inductive stage : Type :=
| ReadingFile
| AwaitingModel
| ReadFailed.

(** [attempt_image] is the [image] the handler closed over. *)
Record Attempt : Type := mkAttempt {
  attempt_image : File;
  attempt_stage : stage
}.

Record World : Type := mkWorld {
  session : Session;
  attempts : list Attempt;
  captures : list File
}.

Definition initial_world : World := mkWorld initial [] [].

(** What the user and the browser do. *)
Inductive input : Type :=
| ChooseFile (file : option File)
| ClickVerify
| FileLoaded (n : nat)
| ModelSettles (n : nat) (completion : option jsstring)
| ClickSwitch (webcam : bool)
| ClickCapture (env : Env)
| CaptureSettles (n : nat)
| FileReadFails (n : nat).

(** The part of [handleVerifyClick] before its first [await]; it
    answers the image of the attempt it starts, if it starts one. *)
Definition verify_begin : M (option File) :=
  fun s =>
    match image s with
    | None => (setError (Some no_image_message) ;; ret None) s
    | Some img =>
        (setLoading true ;;
         setError None ;;
         setExtractedData VNull ;;
         ret (Some img)) s
    end.

(** The part after the model has settled: the rest of the [try] block,
    or the [catch] clause, and the [finally] clause. *)
Definition verify_settle (completion : option jsstring) : M unit :=
  try_catch_finally
    (text <- match completion with
             | Some text => ret text
             | None => throw InferenceFailure
             end ;;
     let jsonString := clean_response text in
     parsedData <- JSON_parse jsonString ;;
     setExtractedData parsedData)
    (fun e =>
       emit (ConsoleError e) ;;
       setError (Some processing_error_message))
    (setLoading false).

(** The part of [captureImage] inside the click: the file that the
    [then] callbacks will install, if the screenshot and its [fetch]
    succeed. *)
Definition capture_begin (env : Env) : option File :=
  match getScreenshot env with
  | Some imageSrc =>
      if is_empty imageSrc then None
      else
        match fetch_blob env imageSrc with
        | Some blob =>
            Some (mkFile (blob_bytes blob) (js "webcam-capture.jpg") (js "image/jpeg"))
        | None => None
        end
  | None => None
  end.

(** The last [then] callback of [captureImage]. *)
Definition capture_settle (file : File) : M unit :=
  setImage (Some file) ;;
  setUseWebcam false.

Definition remove_nth {A} (n : nat) (l : list A) : list A :=
  firstn n l ++ skipn (S n) l.

Definition replace_nth {A} (n : nat) (a : A) (l : list A) : list A :=
  firstn n l ++ a :: skipn (S n) l.

Definition with_session (w : World) (r : outcome unit * Session * list event)
  : World * list event :=
  (mkWorld (final_state r) (attempts w) (captures w), trace r).

(** One event of the page.  A control that is not rendered, or is
    disabled, receives no event. *)
Definition step (v : variant) (i : input) (w : World) : World * list event :=
  let s := session w in
  match i with
  | ChooseFile file =>
      if file_input_rendered v s then with_session w (handleImageChange file s)
      else (w, [])
  | ClickVerify =>
      if verify_button_disabled s then (w, [])
      else
        match verify_begin s with
        | (Returned (Some img), s', t) =>
            (mkWorld s' (attempts w ++ [mkAttempt img ReadingFile]) (captures w), t)
        | (_, s', t) => (mkWorld s' (attempts w) (captures w), t)
        end
  | FileLoaded n =>
      match nth_error (attempts w) n with
      | Some (mkAttempt img ReadingFile) =>
          (mkWorld s (replace_nth n (mkAttempt img AwaitingModel) (attempts w))
             (captures w),
           [NetworkCall (request_for v img)])
      | _ => (w, [])
      end
  | ModelSettles n completion =>
      match nth_error (attempts w) n with
      | Some (mkAttempt img AwaitingModel) =>
          let r := verify_settle completion s in
          (mkWorld (final_state r) (remove_nth n (attempts w)) (captures w), trace r)
      | _ => (w, [])
      end
  | ClickSwitch webcam =>
      match v with
      | Detailed => with_session w (setUseWebcam webcam s)
      | Summary => (w, [])
      end
  | ClickCapture env =>
      if capture_button_rendered v s then
        match capture_begin env with
        | Some file => (mkWorld s (attempts w) (captures w ++ [file]), [])
        | None => (w, [])
        end
      else (w, [])
  | CaptureSettles n =>
      match nth_error (captures w) n with
      | Some file =>
          let r := capture_settle file s in
          (mkWorld (final_state r) (attempts w) (remove_nth n (captures w)), trace r)
      | None => (w, [])
      end
  | FileReadFails n =>
      match nth_error (attempts w) n with
      | Some (mkAttempt img ReadingFile) =>
          (mkWorld s (replace_nth n (mkAttempt img ReadFailed) (attempts w))
             (captures w),
           [])
      | _ => (w, [])
      end
  end.

Fixpoint run (v : variant) (inputs : list input) (w : World) : World * list event :=
  match inputs with
  | [] => (w, [])
  | i :: rest =>
      let (w1, t1) := step v i w in
      let (w2, t2) := run v rest w1 in
      (w2, t1 ++ t2)
  end.

Definition is_click_verify (i : input) : bool :=
  match i with ClickVerify => true | _ => false end.

Definition count_network_calls (t : list event) : nat :=
  List.length (filter is_network_call t).

(** Whether no attempt is under way. *)
Definition no_attempt (w : World) : bool :=
  match attempts w with [] => true | _ :: _ => false end.

Definition is_reading (a : Attempt) : bool :=
  match attempt_stage a with
  | ReadingFile => true
  | AwaitingModel | ReadFailed => false
  end.

(** The attempts whose request has not gone out yet. *)
Definition reading (w : World) : nat :=
  List.length (filter is_reading (attempts w)).

(** What holds of every world the page can be in: at most one attempt
    is under way, and [loading] tells whether one is; while one is, no
    result and no error are held; an error that is held is the
    processing message and excludes a result; and before any image is
    held nothing else is. *)
Definition page_invariant (w : World) : Prop :=
  let s := session w in
  (List.length (attempts w) <= 1)%nat
  /\ loading s = negb (no_attempt w)
  /\ (no_attempt w = false -> error s = None /\ extractedData s = VNull)
  /\ (error s = None
      \/ (error s = Some processing_error_message /\ extractedData s = VNull))
  /\ (image s = None ->
      no_attempt w = true /\ extractedData s = VNull /\ error s = None).

End Interleaving.

(* ================================================================== *)
(** * Simulated responses *)
(* ================================================================== *)

Module Simulated.
Import KycVerifier.

(** A code unit that stands for itself inside a JSON string. *)
Definition is_plain_char (c : code_unit) : bool :=
  negb ((c =? 34) || (c =? 92) || (c <? 32)).

Definition is_plain (s : jsstring) : bool := forallb is_plain_char s.

Definition plain_member (m : jsstring * jsstring) : bool :=
  is_plain (fst m) && is_plain (snd m).

Definition string_text (s : jsstring) : jsstring := dquote ++ s ++ dquote.

Definition member_text (m : jsstring * jsstring) : jsstring :=
  string_text (fst m) ++ [58] ++ string_text (snd m).

Fixpoint members_text (fields : list (jsstring * jsstring)) : jsstring :=
  match fields with
  | [] => []
  | [m] => member_text m
  | m :: rest => member_text m ++ [44] ++ members_text rest
  end.

(** The text of an object whose members are all strings, without any
    white space. *)
Definition object_text (fields : list (jsstring * jsstring)) : jsstring :=
  [123] ++ members_text fields ++ [125].

Definition object_value (fields : list (jsstring * jsstring)) : value :=
  VObject (map (fun m => (fst m, VString (snd m))) fields).

(** The string of the last member with key [k]. *)
Fixpoint last_member (k : jsstring) (fields : list (jsstring * jsstring))
  : option jsstring :=
  match fields with
  | [] => None
  | m :: rest =>
      match last_member k rest with
      | Some later => Some later
      | None => if JsString.eqb k (fst m) then Some (snd m) else None
      end
  end.

(** The response the detailed prompt asks for. *)
Definition detailed_fields (nombre apellido nacionalidad fechaNacimiento : jsstring)
  : list (jsstring * jsstring) :=
  [ (js "nombre", nombre); (js "apellido", apellido);
    (js "nacionalidad", nacionalidad); (js "fechaNacimiento", fechaNacimiento) ].

End Simulated.

Module MoreSamples.
Import KycVerifier Samples Interleaving.

Definition empty_file : File := mkFile [] (js "vacio.png") (js "image/png").

(** A response whose name is an object. *)
Definition nested_response : jsstring :=
  js "{" ++ member "nombre" (js "{" ++ member "a" (js "1") ++ js "}") ++ js ","
  ++ member "apellido" (quoted "Perez") ++ js "}".

Definition session_holding (f : File) : Session :=
  final_state (handleImageChange (Some f) initial).

Definition other_file : File :=
  mkFile [x42; x4d] (js "otro.bmp") (js "image/bmp").

Definition world_holding (f : File) : World :=
  mkWorld (session_holding f) [] [].

End MoreSamples.

(* ================================================================== *)
(** * Facts about [replace] and [trim] *)
(* ================================================================== *)

Module JsStringFacts.

Lemma remove_from_skipn (p s : jsstring) (k : nat) :
  remove_from k p s = remove_all p (skipn k s).
Proof.
  revert k; induction s as [|c s IH]; intros [|k]; try reflexivity.
  simpl remove_from. rewrite IH. reflexivity.
Qed.

(** The scan, one decision at a time. *)
Lemma remove_all_step (p s : jsstring) :
  p <> [] ->
  remove_all p s =
    if is_prefix p s then remove_all p (skipn (List.length p) s)
    else match s with
         | [] => []
         | c :: s' => c :: remove_all p s'
         end.
Proof.
  intros Hp. destruct p as [|x p]; [congruence|].
  destruct s as [|c s]; [reflexivity|].
  unfold remove_all at 1. cbn [remove_from].
  destruct (is_prefix (x :: p) (c :: s)); [|reflexivity].
  rewrite remove_from_skipn. reflexivity.
Qed.

Lemma is_prefix_app (p s : jsstring) : is_prefix p (p ++ s) = true.
Proof.
  induction p as [|x p IH]; [reflexivity|].
  simpl. rewrite N.eqb_refl. exact IH.
Qed.

Lemma skipn_length_app (p s : jsstring) : skipn (List.length p) (p ++ s) = s.
Proof. induction p as [|x p IH]; [reflexivity | exact IH]. Qed.

Lemma remove_all_match (p s : jsstring) :
  p <> [] -> remove_all p (p ++ s) = remove_all p s.
Proof.
  intros Hp. rewrite remove_all_step by exact Hp.
  rewrite is_prefix_app, skipn_length_app. reflexivity.
Qed.

Lemma is_prefix_length (p s : jsstring) :
  is_prefix p s = true -> (List.length p <= List.length s)%nat.
Proof.
  revert s; induction p as [|x p IH]; intros [|y s] H; simpl in *;
    try lia; try discriminate.
  apply andb_true_iff in H. destruct H as [_ H]. apply IH in H. lia.
Qed.

Lemma is_prefix_incl (p s : jsstring) :
  is_prefix p s = true -> incl p s.
Proof.
  revert s; induction p as [|x p IH]; intros [|y s] H;
    try (intros u Hu; destruct Hu; fail); try discriminate.
  cbn [is_prefix] in H. apply andb_true_iff in H. destruct H as [Hxy H].
  apply N.eqb_eq in Hxy. subst y.
  intros u [<- | Hu]; [left; reflexivity | right; exact (IH _ H u Hu)].
Qed.

(** A pattern whose first code unit is absent from [w] finds no match
    that starts in [w]. *)
Lemma remove_all_app_l (x : code_unit) (p w s : jsstring) :
  ~ In x w ->
  remove_all (x :: p) (w ++ s) = w ++ remove_all (x :: p) s.
Proof.
  induction w as [|c w IH]; intros Hw; [reflexivity|].
  rewrite remove_all_step by discriminate.
  cbn [app is_prefix].
  destruct (N.eqb_spec x c) as [->|Hne].
  - exfalso. apply Hw. left. reflexivity.
  - cbn [andb]. rewrite IH; [reflexivity|].
    intros Hin. apply Hw. right. exact Hin.
Qed.

(** A pattern whose last code unit is absent from [w] finds no match
    that ends in [w]. *)
Lemma is_prefix_app_r (c : code_unit) (p0 s w : jsstring) :
  ~ In c w ->
  is_prefix (p0 ++ [c]) (s ++ w) = is_prefix (p0 ++ [c]) s.
Proof.
  intros Hw. revert s.
  assert (Hnone : forall q, In c q -> is_prefix q w = false).
  { intros q Hq. destruct (is_prefix q w) eqn:E; [|reflexivity].
    exfalso. apply Hw. exact (is_prefix_incl _ _ E c Hq). }
  induction p0 as [|x p0 IH]; intros [|y s]; cbn [app].
  - rewrite Hnone by (left; reflexivity). reflexivity.
  - cbn [is_prefix]. reflexivity.
  - rewrite (Hnone (x :: p0 ++ [c])).
    + reflexivity.
    + right. apply in_or_app. right. left. reflexivity.
  - cbn [is_prefix]. rewrite IH. reflexivity.
Qed.

Lemma remove_all_untouched (c : code_unit) (p0 w : jsstring) :
  ~ In c w -> remove_all (p0 ++ [c]) w = w.
Proof.
  induction w as [|y w IH]; intros Hw; [reflexivity|].
  rewrite remove_all_step by (destruct p0; discriminate).
  pose proof (is_prefix_app_r c p0 [] (y :: w) Hw) as E.
  cbn [app] in E. rewrite E.
  replace (is_prefix (p0 ++ [c]) []) with false by (destruct p0; reflexivity).
  rewrite IH; [reflexivity|].
  intros Hin. apply Hw. right. exact Hin.
Qed.

Lemma remove_all_app_r (c : code_unit) (p0 s w : jsstring) :
  ~ In c w ->
  remove_all (p0 ++ [c]) (s ++ w) = remove_all (p0 ++ [c]) s ++ w.
Proof.
  intros Hw.
  assert (Hp : p0 ++ [c] <> []) by (destruct p0; discriminate).
  remember (List.length s) as n eqn:Hn.
  revert s Hn. induction n as [n IH] using lt_wf_ind. intros s Hn.
  destruct s as [|y s].
  { cbn [app]. apply remove_all_untouched. exact Hw. }
  rewrite (remove_all_step _ ((y :: s) ++ w)) by exact Hp.
  rewrite (remove_all_step _ (y :: s)) by exact Hp.
  rewrite is_prefix_app_r by exact Hw.
  destruct (is_prefix (p0 ++ [c]) (y :: s)) eqn:E.
  - pose proof (is_prefix_length _ _ E) as Hlen.
    rewrite skipn_app.
    replace (List.length (p0 ++ [c]) - List.length (y :: s))%nat with 0%nat by lia.
    cbn [skipn].
    apply (IH (List.length (skipn (List.length (p0 ++ [c])) (y :: s))));
      [|reflexivity].
    rewrite length_skipn. rewrite length_app in *. cbn [List.length] in *. lia.
  - cbn [app].
    rewrite (IH (List.length s)); [reflexivity | subst n; cbn; lia | reflexivity].
Qed.

(** ** The fence pattern

    Every run of grave accents loses its length modulo three, so one
    more fence anywhere changes nothing. *)
Lemma fence3_prefix_inv (s : jsstring) :
  is_prefix fence3 s = true -> exists r, s = fence3 ++ r.
Proof.
  unfold fence3.
  destruct s as [|x [|y [|z r]]]; cbn [is_prefix]; try discriminate;
    try (rewrite ?andb_false_r; discriminate).
  intros H. apply andb_true_iff in H. destruct H as [Hx H].
  apply andb_true_iff in H. destruct H as [Hy H].
  apply andb_true_iff in H. destruct H as [Hz _].
  apply N.eqb_eq in Hx, Hy, Hz. subst. exists r. reflexivity.
Qed.

Lemma remove_fence3_keep (x : code_unit) (s : jsstring) :
  (forall r, x :: s <> fence3 ++ r) ->
  remove_all fence3 (x :: s) = x :: remove_all fence3 s.
Proof.
  intros Hno. rewrite remove_all_step by discriminate.
  destruct (is_prefix fence3 (x :: s)) eqn:E; [|reflexivity].
  apply fence3_prefix_inv in E. destruct E as [r E]. elim (Hno r E).
Qed.

Lemma remove_fence3_drop (s : jsstring) :
  remove_all fence3 (grave :: grave :: grave :: s) = remove_all fence3 s.
Proof. exact (remove_all_match fence3 s ltac:(discriminate)). Qed.

Ltac not_a_fence :=
  let r := fresh in let E := fresh in
  intros r E; cbn in E; injection E; intros; subst; congruence.

Ltac keep_head :=
  match goal with
  | |- remove_all fence3 (?x :: ?l1) = remove_all fence3 (?x :: ?l2) =>
      rewrite (remove_fence3_keep x l1) by not_a_fence;
      rewrite (remove_fence3_keep x l2) by not_a_fence;
      f_equal
  end.

Lemma remove_fence3_insert (a b : jsstring) :
  remove_all fence3 (a ++ fence3 ++ b) = remove_all fence3 (a ++ b).
Proof.
  remember (List.length a) as n eqn:Hn.
  revert a Hn. induction n as [n IH] using lt_wf_ind. intros a Hn.
  assert (Hkeep : forall x a', a = x :: a' ->
            remove_all fence3 (a' ++ fence3 ++ b) = remove_all fence3 (a' ++ b)).
  { intros x a' ->. apply (IH (List.length a')); [subst n; cbn; lia | reflexivity]. }
  destruct a as [|x a]; cbn [app].
  { apply remove_fence3_drop. }
  specialize (Hkeep x a eq_refl).
  destruct (N.eq_dec x grave) as [->|Hx].
  2:{ keep_head. exact Hkeep. }
  destruct a as [|y a]; cbn [app] in *.
  { apply remove_fence3_drop. }
  destruct (N.eq_dec y grave) as [->|Hy].
  2:{ keep_head. exact Hkeep. }
  destruct a as [|z a]; cbn [app] in *.
  { apply remove_fence3_drop. }
  destruct (N.eq_dec z grave) as [->|Hz].
  2:{ keep_head. exact Hkeep. }
  rewrite !remove_fence3_drop.
  apply (IH (List.length a)); [subst n; cbn; lia | reflexivity].
Qed.

(** ** [trim] *)

Lemma is_blank_not_in (c : code_unit) (w : jsstring) :
  is_trim_space c = false -> is_blank w = true -> ~ In c w.
Proof.
  intros Hc Hw Hin. unfold is_blank in Hw.
  rewrite forallb_forall in Hw. specialize (Hw c Hin). congruence.
Qed.

Lemma trimStart_blank (w s : jsstring) :
  is_blank w = true -> trimStart (w ++ s) = trimStart s.
Proof.
  induction w as [|c w IH]; intros Hw; [reflexivity|].
  cbn in Hw. apply andb_true_iff in Hw. destruct Hw as [Hc Hw].
  cbn [app trimStart]. rewrite Hc. exact (IH Hw).
Qed.

Lemma is_blank_rev (w : jsstring) : is_blank w = true -> is_blank (rev w) = true.
Proof.
  unfold is_blank. rewrite !forallb_forall.
  intros H x Hx. apply H. apply in_rev. exact Hx.
Qed.

Lemma trimEnd_blank (s w : jsstring) :
  is_blank w = true -> trimEnd (s ++ w) = trimEnd s.
Proof.
  intros Hw. unfold trimEnd. rewrite rev_app_distr.
  rewrite trimStart_blank by (apply is_blank_rev; exact Hw). reflexivity.
Qed.

Lemma trim_blank (w1 s w2 : jsstring) :
  is_blank w1 = true -> is_blank w2 = true ->
  trim (w1 ++ s ++ w2) = trim s.
Proof.
  intros H1 H2. unfold trim. rewrite trimStart_blank by exact H1.
  induction s as [|c s IH].
  - cbn [app]. rewrite <- (app_nil_r w2), trimStart_blank by exact H2. reflexivity.
  - cbn [app trimStart]. destruct (is_trim_space c); [exact IH|].
    change (c :: s ++ w2) with ((c :: s) ++ w2).
    apply trimEnd_blank. exact H2.
Qed.

End JsStringFacts.

(* ================================================================== *)
(** * The JSON parser never runs out of fuel *)
(* ================================================================== *)

Module JSONFacts.
Import JSON.

Local Abbreviation len := (@List.length code_unit).

Lemma skip_ws_length (s : jsstring) : (len (skip_ws s) <= len s)%nat.
Proof.
  induction s as [|c s IH]; cbn [skip_ws]; [lia|].
  destruct (is_ws c); cbn [List.length] in *; lia.
Qed.

Lemma strip_prefix_length (p s r : jsstring) :
  strip_prefix p s = Some r -> (len r + len p = len s)%nat.
Proof.
  revert s; induction p as [|x p IH]; intros [|y s] H; cbn in H;
    try discriminate; try (injection H as <-; cbn; lia).
  destruct (x =? y); [|discriminate]. apply IH in H. cbn. lia.
Qed.

Lemma take_digits_length (s : jsstring) (ds : list N) (r : jsstring) :
  take_digits s = (ds, r) -> (len r + List.length ds = len s)%nat.
Proof.
  revert ds r; induction s as [|c s IH]; intros ds r H; cbn [take_digits] in H.
  - injection H as <- <-. reflexivity.
  - destruct (is_digit c).
    + destruct (take_digits s) as [ds' r'] eqn:E.
      injection H as <- <-. specialize (IH _ _ eq_refl). cbn. lia.
    + injection H as <- <-. cbn. lia.
Qed.

Lemma parse_int_length (s : jsstring) (ds : list N) (r : jsstring) :
  parse_int s = Some (ds, r) -> (len r < len s)%nat.
Proof.
  destruct s as [|c s]; cbn [parse_int]; [discriminate|].
  destruct (c =? 48).
  - intros H. injection H as <- <-. cbn. lia.
  - destruct (is_digit c) eqn:Hd; [|discriminate].
    cbn [take_digits]. rewrite Hd.
    destruct (take_digits s) as [ds' r'] eqn:E.
    intros H. injection H as <- <-.
    apply take_digits_length in E. cbn. lia.
Qed.

Lemma parse_frac_length (s : jsstring) (ds : list N) (r : jsstring) :
  parse_frac s = Some (ds, r) -> (len r <= len s)%nat.
Proof.
  destruct s as [|c s]; cbn [parse_frac].
  - intros H. injection H as <- <-. lia.
  - destruct (c =? 46).
    + destruct (take_digits s) as [[|d ds'] r'] eqn:E; [discriminate|].
      intros H. injection H as <- <-.
      apply take_digits_length in E. cbn in *. lia.
    + intros H. injection H as <- <-. lia.
Qed.

Lemma parse_exp_digits_length (neg : bool) (s : jsstring) (e : Z) (r : jsstring) :
  parse_exp_digits neg s = Some (e, r) -> (len r <= len s)%nat.
Proof.
  unfold parse_exp_digits.
  destruct (take_digits s) as [[|d ds'] r'] eqn:E; [discriminate|].
  intros H. injection H as <- <-. apply take_digits_length in E. lia.
Qed.

Lemma parse_exp_length (s : jsstring) (e : Z) (r : jsstring) :
  parse_exp s = Some (e, r) -> (len r <= len s)%nat.
Proof.
  destruct s as [|c s]; cbn [parse_exp].
  - intros H. injection H as <- <-. lia.
  - destruct ((c =? 101) || (c =? 69)).
    + destruct s as [|sign s]; [discriminate|].
      destruct (sign =? 43); [|destruct (sign =? 45)];
        intros H; apply parse_exp_digits_length in H; cbn in *; lia.
    + intros H. injection H as <- <-. lia.
Qed.

Lemma parse_unsigned_length (neg : bool) (s : jsstring) (n : number) (r : jsstring) :
  parse_unsigned neg s = Some (n, r) -> (len r < len s)%nat.
Proof.
  unfold parse_unsigned.
  destruct (parse_int s) as [[ids s1]|] eqn:E1; [|discriminate].
  destruct (parse_frac s1) as [[fds s2]|] eqn:E2; [|discriminate].
  destruct (parse_exp s2) as [[e s3]|] eqn:E3; [|discriminate].
  intros H. injection H as <- <-.
  apply parse_int_length in E1. apply parse_frac_length in E2.
  apply parse_exp_length in E3. lia.
Qed.

Lemma parse_number_length (s : jsstring) (n : number) (r : jsstring) :
  parse_number s = Some (n, r) -> (len r < len s)%nat.
Proof.
  destruct s as [|c s]; cbn [parse_number]; [discriminate|].
  destruct (c =? 45); intros H; apply parse_unsigned_length in H; cbn in *; lia.
Qed.

Lemma cons_char_inv (c : code_unit) (o : option (jsstring * jsstring))
  (body rest : jsstring) :
  cons_char c o = Some (body, rest) ->
  exists body', o = Some (body', rest).
Proof.
  destruct o as [[b r]|]; cbn; [|discriminate].
  intros H. injection H as <- <-. exists b. reflexivity.
Qed.

Lemma parse_string_body_length (s body r : jsstring) :
  parse_string_body s = Some (body, r) -> (len r < len s)%nat.
Proof.
  remember (len s) as n eqn:Hn. revert s body r Hn.
  induction n as [n IH] using lt_wf_ind. intros s body r Hn H.
  destruct s as [|c s]; cbn [parse_string_body] in H; [discriminate|].
  destruct (c =? 34).
  { injection H as <- <-. cbn in Hn. lia. }
  destruct (c =? 92).
  - destruct s as [|e s1]; [discriminate|].
    destruct (e =? 117).
    + destruct s1 as [|h1 [|h2 [|h3 [|h4 s2]]]]; try discriminate.
      destruct (hex4 h1 h2 h3 h4); [|discriminate].
      apply cons_char_inv in H. destruct H as [b' H].
      apply (IH (len s2)) in H; [cbn in *; lia | subst n; cbn; lia | reflexivity].
    + destruct (simple_escape e); [|discriminate].
      apply cons_char_inv in H. destruct H as [b' H].
      apply (IH (len s1)) in H; [cbn in *; lia | subst n; cbn; lia | reflexivity].
  - destruct (c <? 32); [discriminate|].
    apply cons_char_inv in H. destruct H as [b' H].
    apply (IH (len s)) in H; [cbn in *; lia | subst n; cbn; lia | reflexivity].
Qed.

Lemma parse_literal_length (s : jsstring) (v : value) (r : jsstring) :
  parse_literal s = Ok v r -> (len r < len s)%nat.
Proof.
  unfold parse_literal.
  destruct (strip_prefix (js "true") s) eqn:E1.
  { intros H. injection H as _ <-. apply strip_prefix_length in E1.
    cbn in E1. lia. }
  destruct (strip_prefix (js "false") s) eqn:E2.
  { intros H. injection H as _ <-. apply strip_prefix_length in E2.
    cbn in E2. lia. }
  destruct (strip_prefix (js "null") s) eqn:E3; [|discriminate].
  intros H. injection H as _ <-. apply strip_prefix_length in E3.
  cbn in E3. lia.
Qed.

Lemma of_option_length {A B} (f : A -> B) (o : option (A * jsstring))
  (s : jsstring) (b : B) (r : jsstring) :
  (forall a r', o = Some (a, r') -> (len r' < len s)%nat) ->
  of_option f o = Ok b r -> (len r < len s)%nat.
Proof.
  destruct o as [[a r']|]; cbn; [|discriminate].
  intros Ho H. injection H as _ <-. apply (Ho a). reflexivity.
Qed.

(** What a successful call leaves is shorter than what it was given. *)
Lemma parse_consumes (fuel : nat) :
  (forall s v r, parse_value fuel s = Ok v r -> (len r < len s)%nat)
  /\ (forall s acc vs r,
        parse_elements fuel s acc = Ok vs r -> (len r < len s)%nat)
  /\ (forall s acc ps r,
        parse_members fuel s acc = Ok ps r -> (len r < len s)%nat).
Proof.
  induction fuel as [|f [IHv [IHe IHm]]].
  { repeat split; intros; discriminate. }
  repeat split.
  - intros s v r H. cbn [parse_value] in H.
    pose proof (skip_ws_length s) as L0.
    destruct (skip_ws s) as [|c r0]; [discriminate|].
    destruct (c =? 123).
    { pose proof (skip_ws_length r0) as L1.
      destruct (skip_ws r0) as [|d r1]; [discriminate|].
      destruct (d =? 125).
      - injection H as _ <-. cbn in *. lia.
      - destruct (parse_members f (d :: r1) []) eqn:E; try discriminate.
        injection H as _ <-. apply IHm in E. cbn in *. lia. }
    destruct (c =? 91).
    { pose proof (skip_ws_length r0) as L1.
      destruct (skip_ws r0) as [|d r1]; [discriminate|].
      destruct (d =? 93).
      - injection H as _ <-. cbn in *. lia.
      - destruct (parse_elements f (d :: r1) []) eqn:E; try discriminate.
        injection H as _ <-. apply IHe in E. cbn in *. lia. }
    destruct (c =? 34).
    { apply (of_option_length _ _ r0) in H; [cbn in *; lia|].
      intros a r' E. exact (parse_string_body_length _ _ _ E). }
    destruct ((c =? 45) || is_digit c).
    { apply (of_option_length _ _ (c :: r0)) in H; [cbn in *; lia|].
      intros a r' E. exact (parse_number_length _ _ _ E). }
    apply parse_literal_length in H. cbn in *. lia.
  - intros s acc vs r H. cbn [parse_elements] in H.
    destruct (parse_value f s) as [v r0| |] eqn:E; try discriminate.
    apply IHv in E.
    pose proof (skip_ws_length r0) as L1.
    destruct (skip_ws r0) as [|c r1]; [discriminate|].
    destruct (c =? 44).
    { apply IHe in H. cbn in *. lia. }
    destruct (c =? 93); [|discriminate].
    injection H as _ <-. cbn in *. lia.
  - intros s acc ps r H. cbn [parse_members] in H.
    pose proof (skip_ws_length s) as L0.
    destruct (skip_ws s) as [|q r0]; [discriminate|].
    destruct (q =? 34); [|discriminate].
    destruct (parse_string_body r0) as [[key r1]|] eqn:Ek; [|discriminate].
    apply parse_string_body_length in Ek.
    pose proof (skip_ws_length r1) as L1.
    destruct (skip_ws r1) as [|colon r2]; [discriminate|].
    destruct (colon =? 58); [|discriminate].
    destruct (parse_value f r2) as [v r3| |] eqn:E; try discriminate.
    apply IHv in E.
    pose proof (skip_ws_length r3) as L3.
    destruct (skip_ws r3) as [|c r4]; [discriminate|].
    destruct (c =? 44).
    { apply IHm in H. cbn in *. lia. }
    destruct (c =? 125); [|discriminate].
    injection H as _ <-. cbn in *. lia.
Qed.

Lemma of_option_fuel {A B} (f : A -> B) (o : option (A * jsstring)) :
  of_option f o <> OutOfFuel.
Proof. destruct o as [[a r]|]; discriminate. Qed.

Lemma parse_literal_fuel (s : jsstring) : parse_literal s <> OutOfFuel.
Proof.
  unfold parse_literal.
  destruct (strip_prefix (js "true") s); [discriminate|].
  destruct (strip_prefix (js "false") s); [discriminate|].
  destruct (strip_prefix (js "null") s); discriminate.
Qed.

(** Twice the length of the text, and one more, is fuel enough. *)
Lemma parse_fuel_enough (fuel : nat) :
  (forall s, (2 * len s + 1 <= fuel)%nat -> parse_value fuel s <> OutOfFuel)
  /\ (forall s acc, (2 * len s + 2 <= fuel)%nat ->
        parse_elements fuel s acc <> OutOfFuel)
  /\ (forall s acc, (2 * len s + 2 <= fuel)%nat ->
        parse_members fuel s acc <> OutOfFuel).
Proof.
  induction fuel as [|f [IHv [IHe IHm]]].
  { repeat split; intros; lia. }
  destruct (parse_consumes f) as [Cv _].
  repeat split.
  - intros s Hf. cbn [parse_value].
    pose proof (skip_ws_length s) as L0.
    destruct (skip_ws s) as [|c r0]; [discriminate|].
    destruct (c =? 123).
    { pose proof (skip_ws_length r0) as L1.
      destruct (skip_ws r0) as [|d r1] eqn:E1; [discriminate|].
      destruct (d =? 125); [discriminate|].
      destruct (parse_members f (d :: r1) []) eqn:E; try discriminate.
      exfalso. revert E. apply IHm. cbn in *. lia. }
    destruct (c =? 91).
    { pose proof (skip_ws_length r0) as L1.
      destruct (skip_ws r0) as [|d r1] eqn:E1; [discriminate|].
      destruct (d =? 93); [discriminate|].
      destruct (parse_elements f (d :: r1) []) eqn:E; try discriminate.
      exfalso. revert E. apply IHe. cbn in *. lia. }
    destruct (c =? 34); [apply of_option_fuel|].
    destruct ((c =? 45) || is_digit c); [apply of_option_fuel|].
    apply parse_literal_fuel.
  - intros s acc Hf. cbn [parse_elements].
    destruct (parse_value f s) as [v r0| |] eqn:E; try discriminate.
    + apply Cv in E.
      pose proof (skip_ws_length r0) as L1.
      destruct (skip_ws r0) as [|c r1]; [discriminate|].
      destruct (c =? 44).
      { apply IHe. cbn in *. lia. }
      destruct (c =? 93); discriminate.
    + exfalso. revert E. apply IHv. lia.
  - intros s acc Hf. cbn [parse_members].
    pose proof (skip_ws_length s) as L0.
    destruct (skip_ws s) as [|q r0]; [discriminate|].
    destruct (q =? 34); [|discriminate].
    destruct (parse_string_body r0) as [[key r1]|] eqn:Ek; [|discriminate].
    apply parse_string_body_length in Ek.
    pose proof (skip_ws_length r1) as L1.
    destruct (skip_ws r1) as [|colon r2]; [discriminate|].
    destruct (colon =? 58); [|discriminate].
    destruct (parse_value f r2) as [v r3| |] eqn:E; try discriminate.
    + apply Cv in E.
      pose proof (skip_ws_length r3) as L3.
      destruct (skip_ws r3) as [|c r4]; [discriminate|].
      destruct (c =? 44).
      { apply IHm. cbn in *. lia. }
      destruct (c =? 125); discriminate.
    + exfalso. revert E. apply IHv. cbn in *. lia.
Qed.

(** [JSON.parse] always answers: a value or a [SyntaxError]. *)
Theorem parse_text_total (s : jsstring) : parse_text s <> OutOfFuel.
Proof.
  unfold parse_text.
  destruct (parse_value (fuel_for s) s) as [v r| |] eqn:E.
  - destruct (skip_ws r); discriminate.
  - discriminate.
  - exfalso. revert E. apply (parse_fuel_enough (fuel_for s)).
    unfold fuel_for. lia.
Qed.

Corollary parse_None_is_SyntaxError (s : jsstring) :
  parse s = None <-> parse_text s = SyntaxError.
Proof.
  unfold parse. pose proof (parse_text_total s) as T.
  destruct (parse_text s); split; intros H; congruence.
Qed.

End JSONFacts.

(* ================================================================== *)
(** * Base64 decoding inverts encoding *)
(* ================================================================== *)

Module Base64Facts.
Import Base64.

Lemma forall_below (P : N -> bool) (n : nat) :
  forallb P (map N.of_nat (seq 0 n)) = true ->
  forall i, i < N.of_nat n -> P i = true.
Proof.
  intros H i Hi. rewrite forallb_forall in H. apply H.
  apply in_map_iff. exists (N.to_nat i). split; [apply N2Nat.id|].
  apply in_seq. lia.
Qed.

Lemma sextet_of_char_of_sextet (i : N) :
  i < 64 -> sextet_of_char (char_of_sextet i) = Some i.
Proof.
  intros Hi.
  pose (P := fun i => match sextet_of_char (char_of_sextet i) with
                      | Some j => j =? i
                      | None => false
                      end).
  assert (HP : P i = true) by (apply (forall_below P 64); [reflexivity | exact Hi]).
  unfold P in HP. destruct (sextet_of_char (char_of_sextet i)); [|discriminate].
  apply N.eqb_eq in HP. congruence.
Qed.

Lemma char_of_sextet_not_pad (i : N) :
  i < 64 -> (char_of_sextet i =? pad) = false.
Proof.
  intros Hi.
  pose (P := fun i => negb (char_of_sextet i =? pad)).
  assert (HP : P i = true) by (apply (forall_below P 64); [reflexivity | exact Hi]).
  unfold P in HP. apply negb_true_iff in HP. exact HP.
Qed.

Lemma byte_bound (a : byte) : Byte.to_N a < 256.
Proof. pose proof (Byte.to_N_bounded a). lia. Qed.

Lemma list_ind3 {A} (P : list A -> Prop) :
  P [] -> (forall a, P [a]) -> (forall a b, P [a; b]) ->
  (forall a b c l, P l -> P (a :: b :: c :: l)) ->
  forall l, P l.
Proof.
  intros H0 H1 H2 H3.
  fix go 1. intros [|a [|b [|c l]]];
    [exact H0 | exact (H1 a) | exact (H2 a b) | exact (H3 a b c l (go l))].
Qed.

Lemma decode_one (a : byte) : decode (encode [a]) = Some [a].
Proof.
  pose proof (byte_bound a) as Ha. cbn [encode].
  set (n := Byte.to_N a) in *.
  assert (Hx : n / 4 < 64) by (apply N.Div0.div_lt_upper_bound; lia).
  assert (Hy : n mod 4 * 16 < 64) by (pose proof (N.mod_upper_bound n 4); lia).
  cbn [decode].
  rewrite !sextet_of_char_of_sextet by assumption.
  rewrite !N.eqb_refl. cbn [bytes_of option_map].
  replace (group (n / 4) (n mod 4 * 16) 0 0 / 65536) with n.
  - unfold n. rewrite Byte.of_to_N. reflexivity.
  - unfold group. apply N.div_unique with (r := 0); [lia|].
    pose proof (N.div_mod n 4). lia.
Qed.

Lemma decode_two (a b : byte) : decode (encode [a; b]) = Some [a; b].
Proof.
  pose proof (byte_bound a) as Ha. pose proof (byte_bound b) as Hb.
  cbn [encode].
  set (n := Byte.to_N a * 256 + Byte.to_N b).
  assert (Hn : n < 65536) by (unfold n; lia).
  assert (Hx : n / 1024 < 64) by (apply N.Div0.div_lt_upper_bound; lia).
  assert (Hy : n / 16 mod 64 < 64) by (apply N.mod_upper_bound; lia).
  assert (Hz : n mod 16 * 4 < 64) by (pose proof (N.mod_upper_bound n 16); lia).
  cbn [decode].
  rewrite !sextet_of_char_of_sextet by assumption.
  rewrite N.eqb_refl, (char_of_sextet_not_pad _ Hz).
  cbn [bytes_of].
  assert (Hg : group (n / 1024) (n / 16 mod 64) (n mod 16 * 4) 0 = n * 256).
  { unfold group.
    pose proof (N.div_mod n 16 ltac:(lia)).
    pose proof (N.div_mod (n / 16) 64 ltac:(lia)).
    replace (n / 16 / 64) with (n / 1024) in * by (rewrite N.Div0.div_div; reflexivity).
    lia. }
  rewrite Hg.
  replace (n * 256 / 65536) with (Byte.to_N a).
  2:{ apply N.div_unique with (r := Byte.to_N b * 256); unfold n; lia. }
  replace (n * 256 / 256 mod 256) with (Byte.to_N b).
  2:{ rewrite N.div_mul by lia.
      apply N.mod_unique with (q := Byte.to_N a); unfold n; lia. }
  rewrite !Byte.of_to_N. reflexivity.
Qed.

Lemma decode_three (a b c : byte) (rest : list byte) :
  decode (encode rest) = Some rest ->
  decode (encode (a :: b :: c :: rest)) = Some (a :: b :: c :: rest).
Proof.
  intros IH.
  pose proof (byte_bound a) as Ha. pose proof (byte_bound b) as Hb.
  pose proof (byte_bound c) as Hc.
  cbn [encode].
  set (n := Byte.to_N a * 65536 + Byte.to_N b * 256 + Byte.to_N c).
  assert (Hn : n < 16777216) by (unfold n; lia).
  assert (Hx : n / 262144 < 64) by (apply N.Div0.div_lt_upper_bound; lia).
  assert (Hy : n / 4096 mod 64 < 64) by (apply N.mod_upper_bound; lia).
  assert (Hz : n / 64 mod 64 < 64) by (apply N.mod_upper_bound; lia).
  assert (Hw : n mod 64 < 64) by (apply N.mod_upper_bound; lia).
  cbn [decode].
  rewrite !sextet_of_char_of_sextet by assumption.
  rewrite (char_of_sextet_not_pad _ Hw).
  assert (Hg : group (n / 262144) (n / 4096 mod 64) (n / 64 mod 64) (n mod 64) = n).
  { unfold group.
    pose proof (N.div_mod n 64 ltac:(lia)).
    pose proof (N.div_mod (n / 64) 64 ltac:(lia)).
    pose proof (N.div_mod (n / 4096) 64 ltac:(lia)).
    replace (n / 64 / 64) with (n / 4096) in * by (rewrite N.Div0.div_div; reflexivity).
    replace (n / 4096 / 64) with (n / 262144) in * by (rewrite N.Div0.div_div; reflexivity).
    lia. }
  rewrite Hg, IH. cbn [bytes_of].
  replace (n / 65536) with (Byte.to_N a).
  2:{ apply N.div_unique with (r := Byte.to_N b * 256 + Byte.to_N c);
        unfold n; lia. }
  replace (n / 256 mod 256) with (Byte.to_N b).
  2:{ replace (n / 256) with (Byte.to_N a * 256 + Byte.to_N b).
      - apply N.mod_unique with (q := Byte.to_N a); lia.
      - apply N.div_unique with (r := Byte.to_N c); unfold n; lia. }
  replace (n mod 256) with (Byte.to_N c).
  2:{ apply N.mod_unique with (q := Byte.to_N a * 256 + Byte.to_N b);
        unfold n; lia. }
  rewrite !Byte.of_to_N. reflexivity.
Qed.

Theorem decode_encode (bs : list byte) : decode (encode bs) = Some bs.
Proof.
  induction bs as [|a|a b|a b c rest IH] using list_ind3.
  - reflexivity.
  - apply decode_one.
  - apply decode_two.
  - apply decode_three. exact IH.
Qed.

(** No character of an encoding is a comma. *)
Lemma encode_no_comma (bs : list byte) : ~ In 44 (encode bs).
Proof.
  assert (Hc : forall i, char_of_sextet i <> 44).
  { intros i. unfold char_of_sextet.
    destruct (N.ltb_spec i 26); [lia|].
    destruct (N.ltb_spec i 52); [lia|].
    destruct (N.ltb_spec i 62); [lia|].
    destruct (i =? 62); lia. }
  induction bs as [|a|a b|a b c rest IH] using list_ind3; cbn [encode In].
  - tauto.
  - intros [H|[H|[H|[H|[]]]]]; try (exact (Hc _ H)); discriminate.
  - intros [H|[H|[H|[H|[]]]]]; try (exact (Hc _ H)); discriminate.
  - intros [H|[H|[H|[H|H]]]]; try (exact (Hc _ H)). exact (IH H).
Qed.

End Base64Facts.

(* ================================================================== *)
(** * The handlers, case by case *)
(* ================================================================== *)

Module KycVerifierFacts.
Import KycVerifier JsStringFacts.

Section Verify.

Variable v : variant.
Variable env : Env.
Variable s : Session.

(** Without an image only the error message changes and nothing is
    sent. *)
Lemma verify_without_image :
  image s = None ->
  handleVerifyClick v env s =
    (Returned tt,
     mkSession (image s) (extractedData s) (loading s) (Some no_image_message)
       (useWebcam s),
     []).
Proof. intros H. unfold handleVerifyClick, setError. rewrite H. reflexivity. Qed.

Variable img : File.
Hypothesis has_image : image s = Some img.

(** The model call fails. *)
Lemma verify_rejected :
  generateContent env (request_for v img) = None ->
  handleVerifyClick v env s =
    (Returned tt,
     mkSession (Some img) VNull false (Some processing_error_message) (useWebcam s),
     [NetworkCall (request_for v img); ConsoleError InferenceFailure]).
Proof.
  intros H. unfold handleVerifyClick. rewrite has_image.
  unfold try_catch_finally, request_completion, bind, emit, setLoading, setError,
    setExtractedData, ret, throw.
  cbn [image extractedData loading error useWebcam].
  fold (request_for v img). rewrite H.
  cbn [image extractedData loading error useWebcam app]. rewrite has_image.
  reflexivity.
Qed.

(** The completion is not JSON once cleaned. *)
Lemma verify_malformed (text : jsstring) :
  generateContent env (request_for v img) = Some text ->
  parse_response text = None ->
  handleVerifyClick v env s =
    (Returned tt,
     mkSession (Some img) VNull false (Some processing_error_message) (useWebcam s),
     [NetworkCall (request_for v img); ConsoleError JsonSyntaxError]).
Proof.
  intros H Hp. unfold handleVerifyClick. rewrite has_image.
  unfold try_catch_finally, request_completion, JSON_parse, bind, emit, setLoading,
    setError, setExtractedData, ret, throw.
  cbn [image extractedData loading error useWebcam].
  fold (request_for v img). rewrite H.
  unfold parse_response in Hp. rewrite Hp.
  cbn [image extractedData loading error useWebcam app]. rewrite has_image.
  reflexivity.
Qed.

(** The completion is JSON once cleaned: whatever value it denotes is
    stored. *)
Lemma verify_parsed (text : jsstring) (d : value) :
  generateContent env (request_for v img) = Some text ->
  parse_response text = Some d ->
  handleVerifyClick v env s =
    (Returned tt,
     mkSession (Some img) d false None (useWebcam s),
     [NetworkCall (request_for v img)]).
Proof.
  intros H Hp. unfold handleVerifyClick. rewrite has_image.
  unfold try_catch_finally, request_completion, JSON_parse, bind, emit, setLoading,
    setError, setExtractedData, ret, throw.
  cbn [image extractedData loading error useWebcam].
  fold (request_for v img). rewrite H.
  unfold parse_response in Hp. rewrite Hp.
  cbn [image extractedData loading error useWebcam app]. rewrite has_image.
  reflexivity.
Qed.

(** Whenever an image is held, exactly one request goes out. *)
Lemma verify_sends_one_request :
  network_calls (handleVerifyClick v env s) = [NetworkCall (request_for v img)].
Proof.
  destruct (generateContent env (request_for v img)) as [text|] eqn:H.
  - destruct (parse_response text) as [d|] eqn:Hp.
    + rewrite (verify_parsed text d H Hp). reflexivity.
    + rewrite (verify_malformed text H Hp). reflexivity.
  - rewrite (verify_rejected H). reflexivity.
Qed.

End Verify.

(** A new file clears the result and the error. *)
Lemma handleImageChange_clears (f : File) (s : Session) :
  handleImageChange (Some f) s =
    (Returned tt, mkSession (Some f) VNull (loading s) None (useWebcam s), []).
Proof. reflexivity. Qed.

(** A capture replaces the image and leaves the camera mode; the result
    and the error stay as they were. *)
Lemma captureImage_effect (env : Env) (s : Session) (src : jsstring) (blob : Blob) :
  getScreenshot env = Some src ->
  is_empty src = false ->
  fetch_blob env src = Some blob ->
  captureImage env s =
    (Returned tt,
     mkSession
       (Some (mkFile (blob_bytes blob) (js "webcam-capture.jpg") (js "image/jpeg")))
       (extractedData s) (loading s) (error s) false,
     []).
Proof.
  intros H1 H2 H3. unfold captureImage. rewrite H1, H2, H3. reflexivity.
Qed.

(** ** Cleaning a fenced response *)

Lemma fence_is_fence3 : fence = fence3.
Proof. reflexivity. Qed.

Lemma fence_json_head : fence_json = grave :: js "``json".
Proof. reflexivity. Qed.

Lemma fence_json_last : fence_json = js "```jso" ++ [110].
Proof. reflexivity. Qed.

Lemma blank_app (a b : jsstring) :
  is_blank a = true -> is_blank b = true -> is_blank (a ++ b) = true.
Proof.
  unfold is_blank. intros Ha Hb. rewrite forallb_app, Ha, Hb. reflexivity.
Qed.

Lemma clean_fenced (w1 w2 t w3 w4 : jsstring) :
  is_blank w1 = true -> is_blank w2 = true ->
  is_blank w3 = true -> is_blank w4 = true ->
  clean_response (fenced w1 w2 t w3 w4) = clean_response t.
Proof.
  intros B1 B2 B3 B4.
  assert (G : forall w, is_blank w = true -> ~ In grave w)
    by (intros w; apply is_blank_not_in; reflexivity).
  assert (L : forall w, is_blank w = true -> ~ In 110 w)
    by (intros w; apply is_blank_not_in; reflexivity).
  unfold clean_response, fenced.
  (* the tagged fence *)
  assert (E1 : remove_all fence_json
                 (w1 ++ fence_json ++ w2 ++ t ++ w3 ++ fence ++ w4)
               = w1 ++ w2 ++ remove_all fence_json t ++ w3 ++ fence3 ++ w4).
  { rewrite fence_json_head at 1.
    rewrite remove_all_app_l by (apply G; exact B1).
    rewrite <- fence_json_head.
    rewrite remove_all_match by discriminate.
    rewrite fence_json_head at 1.
    rewrite remove_all_app_l by (apply G; exact B2).
    rewrite <- fence_json_head.
    rewrite fence_json_last at 1.
    rewrite remove_all_app_r.
    - reflexivity.
    - intros Hin. apply in_app_or in Hin. destruct Hin as [Hin|Hin].
      + exact (L _ B3 Hin).
      + apply in_app_or in Hin. destruct Hin as [Hin|Hin].
        * cbn in Hin. repeat (destruct Hin as [Hin|Hin]; [discriminate|]).
          exact Hin.
        * exact (L _ B4 Hin). }
  rewrite E1, fence_is_fence3.
  (* the closing fence *)
  assert (E2 : remove_all fence3
                 (w1 ++ w2 ++ remove_all fence_json t ++ w3 ++ fence3 ++ w4)
               = (w1 ++ w2) ++ remove_all fence3 (remove_all fence_json t)
                   ++ (w3 ++ w4)).
  { replace (w1 ++ w2 ++ remove_all fence_json t ++ w3 ++ fence3 ++ w4)
      with ((w1 ++ w2 ++ remove_all fence_json t ++ w3) ++ fence3 ++ w4)
      by (rewrite <- !app_assoc; reflexivity).
    rewrite remove_fence3_insert.
    rewrite <- !app_assoc.
    unfold fence3.
    rewrite remove_all_app_l by (apply G; exact B1).
    rewrite remove_all_app_l by (apply G; exact B2).
    change [grave; grave; grave] with ([grave; grave] ++ [grave]).
    rewrite remove_all_app_r; [reflexivity|].
    intros Hin. apply in_app_or in Hin.
    destruct Hin as [Hin|Hin]; [exact (G _ B3 Hin) | exact (G _ B4 Hin)]. }
  rewrite E2.
  apply trim_blank; apply blank_app; assumption.
Qed.

(** ** The data URL splits at its only comma *)

Lemma split_on_none (sep : code_unit) (a : jsstring) :
  ~ In sep a -> split_on sep a = [a].
Proof.
  induction a as [|c a IH]; intros H; [reflexivity|].
  cbn [split_on]. rewrite IH by (intros Hin; apply H; right; exact Hin).
  destruct (N.eqb_spec c sep) as [->|_]; [|reflexivity].
  exfalso. apply H. left. reflexivity.
Qed.

Lemma split_on_first (sep : code_unit) (a b : jsstring) :
  ~ In sep a -> split_on sep (a ++ sep :: b) = a :: split_on sep b.
Proof.
  induction a as [|c a IH]; intros H; cbn [app split_on].
  - rewrite N.eqb_refl. destruct (split_on sep b) eqn:E; [|reflexivity].
    destruct b; cbn in E; [discriminate|].
    destruct (split_on sep b); [discriminate|].
    destruct (_ =? _); discriminate.
  - rewrite IH by (intros Hin; apply H; right; exact Hin).
    destruct (N.eqb_spec c sep) as [->|_]; [|reflexivity].
    exfalso. apply H. left. reflexivity.
Qed.

Lemma media_type_no_comma (type : jsstring) :
  ~ In 44 type -> ~ In 44 (media_type_text type).
Proof.
  intros H. unfold media_type_text. destruct (is_empty type); [|exact H].
  cbn. intros Hin. repeat (destruct Hin as [Hin|Hin]; [discriminate|]). exact Hin.
Qed.

Lemma part_of_file (file : File) :
  ~ In 44 (file_type file) ->
  fileToGenerativePart file =
    mkPart (mkInlineData (Some (Base64.encode (file_bytes file))) (file_type file)).
Proof.
  intros Hty. unfold fileToGenerativePart, readAsDataURL.
  replace (js "data:" ++ media_type_text (file_type file) ++ js ";base64,"
             ++ Base64.encode (file_bytes file))
    with ((js "data:" ++ media_type_text (file_type file) ++ js ";base64")
            ++ 44 :: Base64.encode (file_bytes file)).
  2:{ rewrite <- !app_assoc. reflexivity. }
  rewrite split_on_first.
  - rewrite split_on_none by apply Base64Facts.encode_no_comma. reflexivity.
  - intros Hin. apply in_app_or in Hin. destruct Hin as [Hin|Hin].
    + cbn in Hin. repeat (destruct Hin as [Hin|Hin]; [discriminate|]). exact Hin.
    + apply in_app_or in Hin. destruct Hin as [Hin|Hin];
        [exact (media_type_no_comma _ Hty Hin)|].
      cbn in Hin. repeat (destruct Hin as [Hin|Hin]; [discriminate|]). exact Hin.
Qed.

End KycVerifierFacts.

(* ================================================================== *)
(** * The rows of the panel and their text *)
(* ================================================================== *)

Module DisplayFacts.
Import KycVerifier Display.

(** The rows of the panel are the rows of the expected fields, in
    their order. *)
Lemma result_rows_expected (v : variant) (d : value) :
  result_rows v d = map (row_of d) (expected_fields v).
Proof. destruct v; reflexivity. Qed.

Lemma expected_fallback_nonempty (v : variant) (f : field) :
  In f (expected_fields v) -> is_empty (js (field_fallback f)) = false.
Proof.
  destruct v; cbn [expected_fields In]; intros H;
    repeat (destruct H as [<-|H]; [reflexivity|]); destruct H.
Qed.



Lemma shown_fallback (d : value) (f : field) :
  ToBoolean (get d (js (field_key f))) = false ->
  row_of d f = mkRow (js (field_label f)) (VString (js (field_fallback f))).
Proof.
  intros H. unfold row_of, field_row, js_or. rewrite H. reflexivity.
Qed.

Lemma display_fallback (f : field) :
  is_empty (js (field_fallback f)) = false ->
  display_row (mkRow (js (field_label f)) (VString (js (field_fallback f))))
  = Some (js (field_label f), [TextOf (js (field_fallback f))]).
Proof.
  intros H. unfold display_row. cbn [shown label render_child]. rewrite H.
  reflexivity.
Qed.

(** The text of one row, for a field of the kinds the prompts ask
    for. *)
Lemma display_row_expected (d : value) (f : field) :
  is_empty (js (field_fallback f)) = false ->
  is_text_or_missing (get d (js (field_key f))) = true ->
  display_row (row_of d f) = Some (js (field_label f), expected_text d f).
Proof.
  intros Hfb Hkind. unfold expected_text.
  destruct (get d (js (field_key f))) as [| |b|n|str|items|props] eqn:E;
    try discriminate.
  - rewrite shown_fallback by (rewrite E; reflexivity). apply display_fallback, Hfb.
  - rewrite shown_fallback by (rewrite E; reflexivity). apply display_fallback, Hfb.
  - destruct (number_is_zero n) eqn:Z.
    + rewrite shown_fallback by (rewrite E; cbn; rewrite Z; reflexivity).
      apply display_fallback, Hfb.
    + unfold row_of, field_row, js_or, display_row. rewrite E.
      cbn [ToBoolean]. rewrite Z. reflexivity.
  - destruct (is_empty str) eqn:Z.
    + rewrite shown_fallback by (rewrite E; cbn; rewrite Z; reflexivity).
      apply display_fallback, Hfb.
    + unfold row_of, field_row, js_or, display_row. rewrite E.
      cbn [ToBoolean negb shown label render_child]. rewrite Z.
      cbn [negb shown label render_child]. rewrite Z. reflexivity.
Qed.

Lemma display_rows_expected (d : value) (fields : list field) :
  (forall f, In f fields -> is_empty (js (field_fallback f)) = false) ->
  (forall f, In f fields -> is_text_or_missing (get d (js (field_key f))) = true) ->
  display_rows (map (row_of d) fields)
  = Some (map (fun f => (js (field_label f), expected_text d f)) fields).
Proof.
  induction fields as [|f fields IH]; intros Hfb Hkind; [reflexivity|].
  cbn [map display_rows].
  rewrite display_row_expected by (try apply Hfb; try apply Hkind; left; reflexivity).
  rewrite IH; [reflexivity | |];
    intros g Hg; [apply Hfb | apply Hkind]; right; exact Hg.
Qed.

Lemma display_rows_throw (rows : list row) (r : row) :
  In r rows -> display_row r = None -> display_rows rows = None.
Proof.
  induction rows as [|x rows IH]; intros Hin Hr; [destruct Hin|].
  cbn [display_rows]. destruct Hin as [->|Hin].
  - rewrite Hr. reflexivity.
  - rewrite (IH Hin Hr). destruct (display_row x); reflexivity.
Qed.

End DisplayFacts.

(* ================================================================== *)
(** * The properties of the specification *)
(* ================================================================== *)

Module KycVerifierSpec.
Import KycVerifier KycVerifierFacts Samples Display DisplayFacts.

(** C1 (the camera path).  After a verification that succeeded, and
    after one that failed, a camera capture with a successful screenshot
    installs the captured file as the new image but keeps the previous
    result and the previous error message: [captureImage] calls
    [setImage] and [setUseWebcam] only, where [handleImageChange] also
    resets [extractedData] and [error]. *)
Lemma captureImage_keeps_result_and_error :
  let succeeded :=
    final_state (handleVerifyClick Detailed (env_answering (Some full_response))
                   session_with_image) in
  let failed :=
    final_state (handleVerifyClick Detailed (env_answering None) session_with_image) in
  let captured := mkFile [xff; xd8; xff] (js "webcam-capture.jpg") (js "image/jpeg") in
  attempt_of succeeded = Succeeded (object_of full_response)
  /\ image (final_state (captureImage env_camera succeeded)) = Some captured
  /\ extractedData (final_state (captureImage env_camera succeeded))
     = object_of full_response
  /\ attempt_of failed = Failed processing_error_message
  /\ image (final_state (captureImage env_camera failed)) = Some captured
  /\ error (final_state (captureImage env_camera failed))
     = Some processing_error_message
  /\ extractedData (final_state (handleImageChange (Some captured) succeeded)) = VNull
  /\ error (final_state (handleImageChange (Some captured) failed)) = None.
Proof. vm_compute. repeat split. Qed.

(** The gate against a second dispatch is not inside the handler:
    [handleVerifyClick] checks only that an image is held, and when it
    is called on a session in flight it sends a request.  The page
    never makes that call: the handler's one call site is the click on
    the verify button (next theorem). *)
Lemma handleVerifyClick_ignores_loading :
  loading session_in_flight = true
  /\ network_calls (handleVerifyClick Detailed (env_answering None) session_in_flight)
     = [NetworkCall (request_for Detailed sample_file)].
Proof. split; [reflexivity | apply verify_sends_one_request; reflexivity]. Qed.

(** C2.  While an attempt is in flight ([loading] true) the verify
    button is disabled, so a second click on it is rejected before
    anything is dispatched: [handleVerifyClick] does not run, no
    request is sent and the session is unchanged. *)
Theorem click_while_loading_sends_nothing (v : variant) (env : Env) (s : Session) :
  loading s = true ->
  verify_button_disabled s = true
  /\ clickVerify v env s = (Returned tt, s, [])
  /\ network_calls (clickVerify v env s) = [].
Proof.
  intros H.
  assert (D : verify_button_disabled s = true).
  { unfold verify_button_disabled. destruct (image s); [exact H | reflexivity]. }
  unfold clickVerify. rewrite D. repeat split.
Qed.

Lemma click_while_loading_witness :
  loading session_in_flight = true
  /\ (verify_button_disabled session_in_flight = true
      /\ clickVerify Detailed (env_answering None) session_in_flight
         = (Returned tt, session_in_flight, [])
      /\ network_calls (clickVerify Detailed (env_answering None) session_in_flight)
         = []).
Proof.
  split; [reflexivity|].
  apply (click_while_loading_sends_nothing Detailed (env_answering None)
           session_in_flight).
  reflexivity.
Defined.

(** C3, as stated, fails: the completion [42] is valid JSON and not an
    object, and the attempt ends with no error at all and with the
    number stored as the result, whereas a failure of the inference
    client ends with the error message shown. *)
Lemma number_response_is_not_an_error :
  let answered :=
    final_state (handleVerifyClick Detailed (env_answering (Some (js "42")))
                   session_with_image) in
  let rejected :=
    final_state (handleVerifyClick Detailed (env_answering None) session_with_image) in
  parse_response (js "42") = Some (VNumber (mkNumber false 42 0))
  /\ is_object (VNumber (mkNumber false 42 0)) = false
  /\ error_view answered = None
  /\ extractedData answered = VNumber (mkNumber false 42 0)
  /\ error_view rejected = Some processing_error_message.
Proof. vm_compute. repeat split. Qed.

(** C3, amended.  A completion that is valid JSON once cleaned but not
    an object is accepted like any other: the parsed value becomes
    [extractedData], no error message is set, and [loading] is
    cleared. *)
Theorem non_object_json_is_stored
  (v : variant) (env : Env) (s : Session) (img : File) (text : jsstring) (d : value) :
  image s = Some img ->
  generateContent env (request_for v img) = Some text ->
  parse_response text = Some d ->
  is_object d = false ->
  let s' := final_state (handleVerifyClick v env s) in
  extractedData s' = d /\ error s' = None /\ error_view s' = None
  /\ loading s' = false.
Proof.
  intros Himg Hgen Hparse _.
  rewrite (verify_parsed v env s img Himg text d Hgen Hparse).
  repeat split.
Qed.

Lemma non_object_json_witness :
  image session_with_image = Some sample_file
  /\ generateContent (env_answering (Some (js "[1, 2]")))
       (request_for Summary sample_file) = Some (js "[1, 2]")
  /\ parse_response (js "[1, 2]")
     = Some (VArray [VNumber (mkNumber false 1 0); VNumber (mkNumber false 2 0)])
  /\ (let s' := final_state (handleVerifyClick Summary
                               (env_answering (Some (js "[1, 2]")))
                               session_with_image) in
      extractedData s'
      = VArray [VNumber (mkNumber false 1 0); VNumber (mkNumber false 2 0)]
      /\ error s' = None /\ error_view s' = None /\ loading s' = false).
Proof.
  split; [reflexivity|]. split; [reflexivity|]. split; [vm_compute; reflexivity|].
  apply (non_object_json_is_stored Summary (env_answering (Some (js "[1, 2]")))
           session_with_image sample_file (js "[1, 2]")).
  - reflexivity.
  - reflexivity.
  - vm_compute. reflexivity.
  - reflexivity.
Defined.

(** C4.  When the completion, once cleaned of fences and trimmed, is
    not valid JSON, the attempt ends failed: [loading] is cleared, the
    generic error message, which is not empty, is set and shown, and
    [extractedData] is [null]. *)
Theorem malformed_response_fails
  (v : variant) (env : Env) (s : Session) (img : File) (text : jsstring) :
  image s = Some img ->
  generateContent env (request_for v img) = Some text ->
  JSON.parse_text (clean_response text) = JSON.SyntaxError ->
  let s' := final_state (handleVerifyClick v env s) in
  attempt_of s' = Failed processing_error_message
  /\ is_empty processing_error_message = false
  /\ error_view s' = Some processing_error_message
  /\ extractedData s' = VNull.
Proof.
  intros Himg Hgen Hsyntax.
  assert (Hparse : parse_response text = None)
    by (apply JSONFacts.parse_None_is_SyntaxError; exact Hsyntax).
  rewrite (verify_malformed v env s img Himg text Hgen Hparse).
  repeat split.
Qed.

Lemma malformed_response_witness :
  let text := js "Lo siento, no puedo leer el documento." in
  image session_with_image = Some sample_file
  /\ generateContent (env_answering (Some text)) (request_for Detailed sample_file)
     = Some text
  /\ JSON.parse_text (clean_response text) = JSON.SyntaxError
  /\ (let s' := final_state (handleVerifyClick Detailed (env_answering (Some text))
                               session_with_image) in
      attempt_of s' = Failed processing_error_message
      /\ is_empty processing_error_message = false
      /\ error_view s' = Some processing_error_message
      /\ extractedData s' = VNull).
Proof.
  intros text.
  split; [reflexivity|]. split; [reflexivity|]. split; [vm_compute; reflexivity|].
  apply (malformed_response_fails Detailed (env_answering (Some text))
           session_with_image sample_file text).
  - reflexivity.
  - reflexivity.
  - vm_compute. reflexivity.
Defined.

(** C5, as stated, fails on its middle part: in [partial_response] the
    name is present, as the empty string, and the surname is [null];
    the attempt succeeds and the surname shows the fallback, but the
    name is not shown as received: its row shows the fallback too. *)
Lemma empty_name_is_not_shown_as_received :
  let s' := final_state (handleVerifyClick Detailed
                           (env_answering (Some partial_response))
                           session_with_image) in
  let d := extractedData s' in
  attempt_of s' = Succeeded d
  /\ get d (js "apellido") = VNull
  /\ get d (js "nombre") = VString []
  /\ is_missing (get d (js "nombre")) = false
  /\ nth_error (result_rows Detailed d) 0
     = Some (mkRow (js "Nombre:") (VString (js "No encontrado")))
  /\ VString (js "No encontrado") <> get d (js "nombre").
Proof. vm_compute. repeat split. discriminate. Qed.

(** C5, amended.  When the cleaned completion parses to an object
    whose expected fields are each [null], absent, a string or a
    number, the attempt succeeds with that object as [extractedData]
    and no error, and the page displays the results panel with one row
    for each expected field, in order: the row shows the fallback of
    the field when the field is [null] or absent (or the empty string,
    or a zero), and otherwise exactly the string or the number
    received. *)
Theorem partial_object_is_displayed
  (v : variant) (env : Env) (s : Session) (img : File) (text : jsstring)
  (props : list (jsstring * value)) :
  image s = Some img ->
  generateContent env (request_for v img) = Some text ->
  parse_response text = Some (VObject props) ->
  (forall f, In f (expected_fields v) ->
             is_text_or_missing (get (VObject props) (js (field_key f))) = true) ->
  let d := VObject props in
  let s' := final_state (handleVerifyClick v env s) in
  attempt_of s' = Succeeded d
  /\ extractedData s' = d
  /\ error s' = None
  /\ display_results v s'
     = Some (PanelDisplayed
               (map (fun f => (js (field_label f), expected_text d f))
                  (expected_fields v))).
Proof.
  intros Himg Hgen Hparse Hkind d s'. subst s'.
  rewrite (verify_parsed v env s img Himg text d Hgen Hparse).
  repeat split.
  unfold display_results, render_results.
  cbn [final_state fst snd extractedData]. unfold d at 1. cbn [ToBoolean].
  rewrite result_rows_expected.
  rewrite display_rows_expected; [reflexivity | | exact Hkind].
  intros f Hf. exact (expected_fallback_nonempty v f Hf).
Qed.

Lemma partial_object_witness :
  let env := env_answering (Some partial_response) in
  let props := [(js "nombre", VString []); (js "apellido", VNull);
                (js "nacionalidad", VString (js "AR"))] in
  let d := VObject props in
  image session_with_image = Some sample_file
  /\ generateContent env (request_for Detailed sample_file) = Some partial_response
  /\ parse_response partial_response = Some d
  /\ (let s' := final_state (handleVerifyClick Detailed env session_with_image) in
      attempt_of s' = Succeeded d
      /\ extractedData s' = d
      /\ error s' = None
      /\ display_results Detailed s'
         = Some (PanelDisplayed
                   (map (fun f => (js (field_label f), expected_text d f))
                      (expected_fields Detailed))))
  /\ map (fun f => (js (field_label f), expected_text d f)) (expected_fields Detailed)
     = [ (js "Nombre:", [TextOf (js "No encontrado")]);
         (js "Apellido:", [TextOf (js "No encontrado")]);
         (js "Nacionalidad:", [TextOf (js "AR")]);
         (js "Fecha de Nacimiento:", [TextOf (js "No encontrada")]) ].
Proof.
  intros env props d.
  split; [reflexivity|]. split; [reflexivity|]. split; [vm_compute; reflexivity|].
  split; [|vm_compute; reflexivity].
  apply (partial_object_is_displayed Detailed env session_with_image sample_file
           partial_response props).
  - reflexivity.
  - reflexivity.
  - vm_compute. reflexivity.
  - intros f Hf. cbn [expected_fields In] in Hf.
    repeat (destruct Hf as [<-|Hf]; [vm_compute; reflexivity|]). destruct Hf.
Defined.

(** C6.  For every text [t], the response parser gives the same answer
    on [t] and on [t] wrapped in Markdown fences: an opening fence with
    the [json] tag and a closing fence, with any blanks before, between
    and after. *)
Theorem fenced_response_parses_alike (w1 w2 t w3 w4 : jsstring) :
  is_blank w1 = true -> is_blank w2 = true ->
  is_blank w3 = true -> is_blank w4 = true ->
  parse_response (fenced w1 w2 t w3 w4) = parse_response t.
Proof.
  intros B1 B2 B3 B4. unfold parse_response.
  rewrite clean_fenced by assumption. reflexivity.
Qed.

Lemma fenced_response_witness :
  is_blank [] = true /\ is_blank newline = true
  /\ is_blank (js " " ++ newline) = true /\ is_blank newline = true
  /\ parse_response (fenced [] newline full_response (js " " ++ newline) newline)
     = parse_response full_response.
Proof.
  repeat (split; [reflexivity|]).
  apply (fenced_response_parses_alike [] newline full_response (js " " ++ newline)
           newline); reflexivity.
Defined.

(** C7.  With no image in the session, [handleVerifyClick] sets the
    message that asks for an image, sends nothing, and leaves
    [extractedData], and every other cell, as it was. *)
Theorem verify_without_image_only_sets_error (v : variant) (env : Env) (s : Session) :
  image s = None ->
  let r := handleVerifyClick v env s in
  error (final_state r) = Some no_image_message
  /\ is_empty no_image_message = false
  /\ trace r = []
  /\ extractedData (final_state r) = extractedData s
  /\ image (final_state r) = image s
  /\ loading (final_state r) = loading s
  /\ useWebcam (final_state r) = useWebcam s.
Proof.
  intros H r. subst r. rewrite (verify_without_image v env s H). repeat split.
Qed.

Lemma verify_without_image_witness :
  let s := mkSession None (object_of full_response) false None false in
  let r := handleVerifyClick Detailed (env_answering (Some full_response)) s in
  image s = None
  /\ (error (final_state r) = Some no_image_message
      /\ is_empty no_image_message = false
      /\ trace r = []
      /\ extractedData (final_state r) = extractedData s
      /\ image (final_state r) = image s
      /\ loading (final_state r) = loading s
      /\ useWebcam (final_state r) = useWebcam s).
Proof.
  intros s r. split; [reflexivity|].
  apply (verify_without_image_only_sets_error Detailed
           (env_answering (Some full_response)) s).
  reflexivity.
Defined.

(** C8.  For every byte sequence, [fileToGenerativePart] yields as
    [data] the base64 text of the bytes, which decodes to exactly those
    bytes, and as [mimeType] the file's own type.  The type is a MIME
    type and as such holds no comma: [split(',')[1]] takes what follows
    the first comma of the data URL. *)
Theorem encoding_round_trips (file : File) :
  ~ In 44 (file_type file) ->
  let part := inlineData (fileToGenerativePart file) in
  data part = Some (Base64.encode (file_bytes file))
  /\ Base64.decode (Base64.encode (file_bytes file)) = Some (file_bytes file)
  /\ mimeType part = file_type file.
Proof.
  intros H part. subst part. rewrite (part_of_file file H).
  repeat split. apply Base64Facts.decode_encode.
Qed.

Lemma encoding_round_trips_witness :
  ~ In 44 (file_type sample_file)
  /\ (let part := inlineData (fileToGenerativePart sample_file) in
      data part = Some (Base64.encode (file_bytes sample_file))
      /\ Base64.decode (Base64.encode (file_bytes sample_file))
         = Some (file_bytes sample_file)
      /\ mimeType part = file_type sample_file).
Proof.
  assert (H : ~ In 44 (file_type sample_file)).
  { cbn. intros Hin. repeat (destruct Hin as [Hin|Hin]; [discriminate|]). exact Hin. }
  split; [exact H|].
  apply (encoding_round_trips sample_file). exact H.
Defined.

(** C9.  On both error paths of an attempt, the failure of the
    inference client and the failure to parse its completion, the
    attempt ends with [loading] cleared and with the image it started
    with, so the verify button is enabled again. *)
Theorem error_paths_allow_retry
  (v : variant) (env : Env) (s : Session) (img : File) :
  image s = Some img ->
  generateContent env (request_for v img) = None
  \/ (exists text, generateContent env (request_for v img) = Some text
                   /\ parse_response text = None) ->
  let s' := final_state (handleVerifyClick v env s) in
  loading s' = false
  /\ image s' = image s
  /\ verify_button_disabled s' = false
  /\ error_view s' = Some processing_error_message.
Proof.
  intros Himg [Hgen | [text [Hgen Hparse]]] s'; subst s'.
  - rewrite (verify_rejected v env s img Himg Hgen), Himg. repeat split.
  - rewrite (verify_malformed v env s img Himg text Hgen Hparse), Himg.
    repeat split.
Qed.

Lemma error_paths_witness :
  image session_with_image = Some sample_file
  /\ (let s' := final_state (handleVerifyClick Summary (env_answering None)
                               session_with_image) in
      loading s' = false
      /\ image s' = image session_with_image
      /\ verify_button_disabled s' = false
      /\ error_view s' = Some processing_error_message).
Proof.
  split; [reflexivity|].
  apply (error_paths_allow_retry Summary (env_answering None) session_with_image
           sample_file).
  - reflexivity.
  - left. reflexivity.
Defined.



End KycVerifierSpec.

(* ================================================================== *)
(** * More facts about strings *)
(* ================================================================== *)

Module JsStringMoreFacts.
Import JsStringFacts.

Lemma is_prefix_weaken (p a b : jsstring) :
  is_prefix p a = true -> is_prefix p (a ++ b) = true.
Proof.
  revert a; induction p as [|x p IH]; intros [|y a] H; try reflexivity;
    try discriminate.
  cbn [is_prefix app] in *. apply andb_true_iff in H. destruct H as [Hxy H].
  rewrite Hxy, (IH _ H). reflexivity.
Qed.

Lemma is_prefix_shorter (p q s : jsstring) :
  is_prefix (p ++ q) s = true -> is_prefix p s = true.
Proof.
  revert s; induction p as [|x p IH]; intros [|y s] H; try reflexivity;
    try discriminate.
  cbn [is_prefix app] in *. apply andb_true_iff in H. destruct H as [Hxy H].
  rewrite Hxy, (IH _ H). reflexivity.
Qed.

Lemma includes_shorter (p q s : jsstring) :
  includes p s = false -> includes (p ++ q) s = false.
Proof.
  induction s as [|c s IH]; cbn [includes]; intros H;
    apply orb_false_iff in H; destruct H as [H1 H2].
  - destruct (is_prefix (p ++ q) []) eqn:E; [|reflexivity].
    apply is_prefix_shorter in E. congruence.
  - rewrite (IH H2), orb_false_r.
    destruct (is_prefix (p ++ q) (c :: s)) eqn:E; [|reflexivity].
    apply is_prefix_shorter in E. congruence.
Qed.

Lemma includes_app_false (p a b : jsstring) :
  includes p (a ++ b) = false -> includes p a = false /\ includes p b = false.
Proof.
  induction a as [|c a IH]; cbn [app]; intros H.
  - split; [|exact H]. destruct p as [|x p]; [|reflexivity].
    destruct b; discriminate.
  - cbn [includes] in H |- *. apply orb_false_iff in H. destruct H as [H1 H2].
    destruct (IH H2) as [Ha Hb]. split; [|exact Hb].
    rewrite Ha, orb_false_r.
    destruct (is_prefix p (c :: a)) eqn:E; [|reflexivity].
    apply (is_prefix_weaken _ _ b) in E. cbn [app] in E. congruence.
Qed.

(** Where the pattern does not occur nothing is removed. *)
Lemma remove_all_absent (p s : jsstring) :
  p <> [] -> includes p s = false -> remove_all p s = s.
Proof.
  intros Hp. induction s as [|c s IH]; intros H; [reflexivity|].
  cbn [includes] in H. apply orb_false_iff in H. destruct H as [H1 H2].
  rewrite remove_all_step by exact Hp. rewrite H1, (IH H2). reflexivity.
Qed.

Lemma is_prefix_fence3_leading (s : jsstring) :
  is_prefix fence3 s = (3 <=? leading_graves s)%nat.
Proof.
  unfold fence3.
  destruct s as [|x [|y [|z r]]]; cbn [is_prefix leading_graves]; try reflexivity;
    rewrite ?(N.eqb_sym grave);
    repeat match goal with
           | |- context [?a =? grave] => destruct (a =? grave)
           end; reflexivity.
Qed.

(** A run of grave accents keeps its length modulo three. *)
Lemma leading_graves_remove (s : jsstring) :
  leading_graves (remove_all fence3 s) = (leading_graves s mod 3)%nat.
Proof.
  remember (List.length s) as n eqn:Hn. revert s Hn.
  induction n as [n IH] using lt_wf_ind. intros s Hn.
  destruct (is_prefix fence3 s) eqn:E.
  - apply fence3_prefix_inv in E. destruct E as [r ->].
    change (fence3 ++ r) with (grave :: grave :: grave :: r).
    rewrite remove_fence3_drop.
    rewrite (IH (List.length r)); [|subst n; cbn; lia|reflexivity].
    cbn [leading_graves]. rewrite N.eqb_refl.
    change (S (S (S (leading_graves r)))) with (3 + leading_graves r)%nat.
    replace (3 + leading_graves r)%nat with (leading_graves r + 1 * 3)%nat by lia.
    rewrite Nat.Div0.mod_add. reflexivity.
  - pose proof E as E'. rewrite is_prefix_fence3_leading in E'.
    apply Nat.leb_gt in E'.
    destruct s as [|c s]; [reflexivity|].
    rewrite remove_all_step by discriminate. rewrite E.
    cbn [leading_graves] in *.
    destruct (c =? grave).
    + rewrite (IH (List.length s)); [|subst n; cbn; lia|reflexivity].
      rewrite !Nat.mod_small by lia. reflexivity.
    + reflexivity.
Qed.

(** After the fences are removed none is left. *)
Lemma no_fence_after_remove (s : jsstring) :
  includes fence3 (remove_all fence3 s) = false.
Proof.
  remember (List.length s) as n eqn:Hn. revert s Hn.
  induction n as [n IH] using lt_wf_ind. intros s Hn.
  destruct s as [|c s]; [reflexivity|].
  assert (Hhead : is_prefix fence3 (remove_all fence3 (c :: s)) = false).
  { rewrite is_prefix_fence3_leading, leading_graves_remove.
    apply Nat.leb_gt. apply Nat.mod_upper_bound. discriminate. }
  destruct (is_prefix fence3 (c :: s)) eqn:E.
  - apply fence3_prefix_inv in E. destruct E as [r E]. rewrite E.
    change (fence3 ++ r) with (grave :: grave :: grave :: r).
    rewrite remove_fence3_drop.
    apply (IH (List.length r)); [|reflexivity].
    subst n. rewrite E. cbn. lia.
  - rewrite remove_all_step in Hhead |- * by discriminate.
    rewrite E in Hhead |- *.
    cbn [includes]. rewrite Hhead. cbn [orb].
    apply (IH (List.length s)); [subst n; cbn; lia | reflexivity].
Qed.

(** ** [trim] *)

Lemma trimStart_suffix (s : jsstring) : exists w, s = w ++ trimStart s.
Proof.
  induction s as [|c s [w IH]]; [exists []; reflexivity|].
  cbn [trimStart]. destruct (is_trim_space c).
  - exists (c :: w). cbn [app]. f_equal. exact IH.
  - exists []. reflexivity.
Qed.

Lemma trimEnd_prefix (s : jsstring) : exists w, s = trimEnd s ++ w.
Proof.
  destruct (trimStart_suffix (rev s)) as [w H].
  exists (rev w). unfold trimEnd.
  rewrite <- rev_app_distr, <- H, rev_involutive. reflexivity.
Qed.

Lemma includes_trim (p s : jsstring) :
  includes p s = false -> includes p (trim s) = false.
Proof.
  intros H. unfold trim.
  destruct (trimStart_suffix s) as [w1 H1].
  destruct (trimEnd_prefix (trimStart s)) as [w2 H2].
  rewrite H1 in H. apply includes_app_false in H. destruct H as [_ H].
  rewrite H2 in H. apply includes_app_false in H. destruct H as [H _].
  exact H.
Qed.

Lemma trimStart_fixed (s : jsstring) : trimStart (trimStart s) = trimStart s.
Proof.
  induction s as [|c s IH]; [reflexivity|].
  cbn [trimStart]. destruct (is_trim_space c) eqn:E; [exact IH|].
  cbn [trimStart]. rewrite E. reflexivity.
Qed.

Lemma trimEnd_fixed (s : jsstring) : trimEnd (trimEnd s) = trimEnd s.
Proof.
  unfold trimEnd. rewrite rev_involutive, trimStart_fixed. reflexivity.
Qed.

Lemma trimStart_snoc (l : jsstring) (c : code_unit) :
  trimStart (l ++ [c]) =
    match trimStart l with
    | [] => if is_trim_space c then [] else [c]
    | t => t ++ [c]
    end.
Proof.
  induction l as [|x l IH]; cbn [app trimStart]; [reflexivity|].
  destruct (is_trim_space x); [exact IH | reflexivity].
Qed.

Lemma trimEnd_cons (c : code_unit) (s : jsstring) :
  trimEnd (c :: s) =
    match trimEnd s with
    | [] => if is_trim_space c then [] else [c]
    | t => c :: t
    end.
Proof.
  unfold trimEnd. cbn [rev]. rewrite trimStart_snoc.
  destruct (trimStart (rev s)) as [|y t] eqn:E.
  - cbn [rev]. destruct (is_trim_space c); reflexivity.
  - rewrite rev_app_distr. cbn [rev app].
    destruct (rev t ++ [y]) eqn:E2; [destruct (rev t); discriminate|].
    reflexivity.
Qed.

Lemma trimStart_trimEnd (s : jsstring) :
  trimStart (trimEnd s) = trimEnd (trimStart s).
Proof.
  induction s as [|c s IH]; [reflexivity|].
  rewrite trimEnd_cons. cbn [trimStart].
  destruct (trimEnd s) as [|y t] eqn:E.
  - destruct (is_trim_space c) eqn:Ec.
    + rewrite <- IH. reflexivity.
    + rewrite trimEnd_cons, E, Ec. cbn [trimStart]. rewrite Ec. reflexivity.
  - cbn [trimStart]. destruct (is_trim_space c) eqn:Ec.
    + rewrite <- IH. reflexivity.
    + rewrite trimEnd_cons, E. reflexivity.
Qed.

Lemma trimStart_trim (s : jsstring) : trimStart (trim s) = trim s.
Proof.
  unfold trim. rewrite <- trimStart_trimEnd, trimStart_fixed. reflexivity.
Qed.

Lemma trimEnd_trim (s : jsstring) : trimEnd (trim s) = trim s.
Proof. unfold trim. apply trimEnd_fixed. Qed.

Lemma trim_fixed (s : jsstring) : trim (trim s) = trim s.
Proof.
  unfold trim at 1. rewrite trimStart_trim. apply trimEnd_trim.
Qed.

Lemma trimStart_length (s : jsstring) :
  (List.length (trimStart s) <= List.length s)%nat.
Proof.
  induction s as [|c s IH]; cbn [trimStart]; [lia|].
  destruct (is_trim_space c); cbn [List.length]; lia.
Qed.

Lemma trimStart_head (c : code_unit) (r : jsstring) :
  trimStart (c :: r) = c :: r -> is_trim_space c = false.
Proof.
  cbn [trimStart]. destruct (is_trim_space c); [|reflexivity].
  intros H. pose proof (trimStart_length r) as L. rewrite H in L.
  cbn [List.length] in L. lia.
Qed.

Lemma trim_blank_text (w : jsstring) : is_blank w = true -> trim w = [].
Proof.
  intros H. pose proof (trim_blank w [] [] H eq_refl) as E.
  rewrite app_nil_r in E. exact E.
Qed.

Lemma trim_between (c d : code_unit) (x : jsstring) :
  is_trim_space c = false -> is_trim_space d = false ->
  trim (c :: x ++ [d]) = c :: x ++ [d].
Proof.
  intros Hc Hd. unfold trim. cbn [trimStart]. rewrite Hc.
  unfold trimEnd. change (c :: x ++ [d]) with ((c :: x) ++ [d]).
  rewrite rev_app_distr. cbn [rev app trimStart]. rewrite Hd.
  change (d :: rev x ++ [c]) with ([d] ++ rev (c :: x)).
  rewrite rev_app_distr, rev_involutive. reflexivity.
Qed.

End JsStringMoreFacts.

(* ================================================================== *)
(** * Parsing a simulated response *)
(* ================================================================== *)

Module SimulatedFacts.
Import JSON Simulated.

Lemma parse_string_body_plain (s rest : jsstring) :
  is_plain s = true -> parse_string_body (s ++ 34 :: rest) = Some (s, rest).
Proof.
  induction s as [|c s IH]; intros H; [reflexivity|].
  cbn [is_plain forallb] in H. apply andb_true_iff in H. destruct H as [Hc H].
  unfold is_plain_char in Hc. apply negb_true_iff in Hc.
  apply orb_false_iff in Hc. destruct Hc as [Hc H32].
  apply orb_false_iff in Hc. destruct Hc as [H34 H92].
  cbn [app parse_string_body]. rewrite H34, H92, H32.
  rewrite (IH H). reflexivity.
Qed.

Lemma parse_value_string (f : nat) (s rest : jsstring) :
  is_plain s = true ->
  parse_value (S f) (34 :: s ++ 34 :: rest) = Ok (VString s) rest.
Proof.
  intros H. cbn [parse_value skip_ws].
  change (is_ws 34) with false. cbv iota.
  change (34 =? 123) with false. change (34 =? 91) with false.
  change (34 =? 34) with true. cbv iota.
  rewrite (parse_string_body_plain s rest H). reflexivity.
Qed.

Lemma member_text_shape (k v rest : jsstring) :
  member_text (k, v) ++ rest = 34 :: k ++ 34 :: 58 :: 34 :: v ++ 34 :: rest.
Proof.
  unfold member_text, string_text, dquote. cbn [fst snd].
  repeat (rewrite <- app_assoc; cbn [app]). reflexivity.
Qed.

(** One member and what follows it: a comma, or the closing brace. *)
Lemma parse_members_one (f : nat) (k v : jsstring) (c : N) (rest : jsstring)
  (acc : list (jsstring * value)) :
  is_plain k = true -> is_plain v = true ->
  parse_members (S (S f)) (member_text (k, v) ++ c :: rest) acc =
    if c =? 44 then parse_members (S f) rest (acc ++ [(k, VString v)])
    else if c =? 125 then Ok (acc ++ [(k, VString v)]) rest
    else match skip_ws (c :: rest) with
         | [] => SyntaxError
         | c' :: r' =>
             if c' =? 44 then parse_members (S f) r' (acc ++ [(k, VString v)])
             else if c' =? 125 then Ok (acc ++ [(k, VString v)]) r'
             else SyntaxError
         end.
Proof.
  intros Hk Hv. rewrite member_text_shape.
  cbn [parse_members skip_ws].
  change (is_ws 34) with false. cbv iota.
  change (34 =? 34) with true. cbv iota.
  rewrite (parse_string_body_plain k _ Hk).
  cbn [skip_ws]. change (is_ws 58) with false. cbv iota.
  change (58 =? 58) with true. cbv iota.
  rewrite (parse_value_string f v _ Hv).
  destruct (N.eqb_spec c 44) as [->|H44].
  { cbn [skip_ws]. change (is_ws 44) with false. cbv iota.
    change (44 =? 44) with true. reflexivity. }
  destruct (N.eqb_spec c 125) as [->|H125].
  { cbn [skip_ws]. change (is_ws 125) with false. cbv iota.
    change (125 =? 44) with false. change (125 =? 125) with true. reflexivity. }
  reflexivity.
Qed.

Lemma parse_members_text (fields : list (jsstring * jsstring)) :
  forall (f : nat) (rest : jsstring) (acc : list (jsstring * value)),
    fields <> [] ->
    forallb plain_member fields = true ->
    (List.length fields < f)%nat ->
    parse_members f (members_text fields ++ 125 :: rest) acc =
      Ok (acc ++ map (fun m => (fst m, VString (snd m))) fields) rest.
Proof.
  induction fields as [|[k v] fields IH]; intros f rest acc Hne Hplain Hf;
    [congruence|].
  cbn [forallb] in Hplain. apply andb_true_iff in Hplain.
  destruct Hplain as [Hm Hplain]. unfold plain_member in Hm. cbn [fst snd] in Hm.
  apply andb_true_iff in Hm. destruct Hm as [Hk Hv].
  destruct f as [|[|f]]; cbn [List.length] in Hf; try lia.
  destruct fields as [|m' fields].
  - cbn [members_text].
    rewrite (parse_members_one f k v 125 rest acc Hk Hv). reflexivity.
  - change (members_text ((k, v) :: m' :: fields))
      with (member_text (k, v) ++ [44] ++ members_text (m' :: fields)).
    rewrite <- !app_assoc. cbn [app].
    rewrite (parse_members_one f k v 44 _ acc Hk Hv).
    change (44 =? 44) with true. cbv iota.
    rewrite IH; [|discriminate|exact Hplain|cbn [List.length] in *; lia].
    cbn [map fst snd]. rewrite <- app_assoc. reflexivity.
Qed.

Lemma members_text_length (fields : list (jsstring * jsstring)) :
  (List.length fields <= List.length (members_text fields))%nat.
Proof.
  induction fields as [|m fields IH]; [cbn; lia|].
  destruct fields as [|m' fields].
  - cbn [members_text]. unfold member_text, string_text, dquote.
    rewrite !length_app. cbn [List.length]. lia.
  - change (members_text (m :: m' :: fields))
      with (member_text m ++ [44] ++ members_text (m' :: fields)).
    rewrite !length_app.
    cbn [List.length] in IH |- *. unfold code_unit in *. lia.
Qed.

Lemma members_text_head (m : jsstring * jsstring) (fields : list (jsstring * jsstring)) :
  exists r, members_text (m :: fields) = 34 :: r.
Proof.
  destruct fields as [|m' fields].
  - cbn [members_text]. unfold member_text, string_text, dquote.
    cbn [app]. eexists. reflexivity.
  - change (members_text (m :: m' :: fields))
      with (member_text m ++ [44] ++ members_text (m' :: fields)).
    unfold member_text, string_text, dquote. cbn [app]. eexists. reflexivity.
Qed.

Lemma parse_value_object (f : nat) (m : jsstring * jsstring)
  (fields : list (jsstring * jsstring)) :
  forallb plain_member (m :: fields) = true ->
  (List.length (m :: fields) < f)%nat ->
  parse_value (S f) (object_text (m :: fields)) = Ok (object_value (m :: fields)) [].
Proof.
  intros Hplain Hf. unfold object_text, object_value.
  destruct (members_text_head m fields) as [r Hr].
  cbn [app parse_value skip_ws]. change (is_ws 123) with false. cbv iota.
  change (123 =? 123) with true. cbv iota.
  rewrite Hr at 1. cbn [app skip_ws]. change (is_ws 34) with false. cbv iota.
  change (34 =? 125) with false. cbv iota.
  change (34 :: r ++ [125]) with ((34 :: r) ++ [125]). rewrite <- Hr.
  match goal with
  | |- match ?x with _ => _ end = _ =>
      assert (E : x = Ok ([] ++ map (fun m0 => (fst m0, VString (snd m0)))
                                   (m :: fields)) [])
        by (apply parse_members_text; [discriminate | exact Hplain | exact Hf]);
      rewrite E
  end.
  reflexivity.
Qed.

(** [JSON.parse] reads an object of plain strings back, member by
    member and in order. *)
Lemma parse_object_text (fields : list (jsstring * jsstring)) :
  forallb plain_member fields = true ->
  JSON.parse (object_text fields) = Some (object_value fields).
Proof.
  intros Hplain. destruct fields as [|m fields]; [reflexivity|].
  unfold JSON.parse, parse_text, fuel_for. rewrite Nat.add_1_r.
  rewrite parse_value_object; [reflexivity | exact Hplain |].
  pose proof (members_text_length (m :: fields)) as Hlen.
  unfold object_text. cbn [app List.length]. rewrite length_app.
  cbn [List.length] in Hlen |- *. unfold code_unit in *. lia.
Qed.

End SimulatedFacts.

(* ================================================================== *)
(** * The page, event after event *)
(* ================================================================== *)

Module InterleavingFacts.
Import KycVerifier View Interleaving KycVerifierFacts.

Lemma run_cons (v : variant) (i : input) (rest : list input) (w : World) :
  run v (i :: rest) w =
    (fst (run v rest (fst (step v i w))),
     snd (step v i w) ++ snd (run v rest (fst (step v i w)))).
Proof.
  cbn [run]. destruct (step v i w) as [w1 t1]. cbn [fst snd].
  destruct (run v rest w1) as [w2 t2]. reflexivity.
Qed.

(** What [verify_settle] leaves, by cases on the completion. *)
Lemma verify_settle_cases (completion : option jsstring) (s : Session) :
  verify_settle completion s =
    match completion with
    | None =>
        (Returned tt,
         mkSession (image s) (extractedData s) false (Some processing_error_message)
           (useWebcam s),
         [ConsoleError InferenceFailure])
    | Some text =>
        match parse_response text with
        | Some d =>
            (Returned tt, mkSession (image s) d false (error s) (useWebcam s), [])
        | None =>
            (Returned tt,
             mkSession (image s) (extractedData s) false
               (Some processing_error_message) (useWebcam s),
             [ConsoleError JsonSyntaxError])
        end
    end.
Proof.
  unfold verify_settle, try_catch_finally, JSON_parse, parse_response, bind, emit,
    setLoading, setError, setExtractedData, ret, throw.
  destruct completion as [text|]; [|reflexivity].
  destruct (JSON.parse (clean_response text)); reflexivity.
Qed.

Lemma settle_sends_nothing (completion : option jsstring) (s : Session) :
  count_network_calls (trace (verify_settle completion s)) = 0%nat.
Proof.
  rewrite verify_settle_cases. destruct completion as [text|]; [|reflexivity].
  destruct (parse_response text); reflexivity.
Qed.

Ltac settle_invariant :=
  cbn in *; repeat split; intros;
  try discriminate; try congruence; try lia;
  intuition (try discriminate; try congruence).

(** Every event keeps the invariant. *)
Lemma step_keeps_invariant (v : variant) (i : input) (w : World) :
  page_invariant w -> page_invariant (fst (step v i w)).
Proof.
  destruct w as [[img d l e u] atts caps].
  unfold page_invariant, no_attempt. cbn [session attempts captures image
    extractedData loading error useWebcam].
  intros (H1 & H2 & H3 & H4 & H5).
  destruct atts as [|x [|y atts]]; [| |cbn in H1; lia].
  - (* no attempt under way *)
    cbn in H2. subst l.
    destruct i as [file| |n|n completion|webcam|env|n|n]; cbn [step session].
    + destruct (file_input_rendered v _); [|settle_invariant].
      destruct file; settle_invariant.
    + unfold verify_button_disabled. cbn [image loading].
      destruct img; settle_invariant.
    + destruct n; settle_invariant.
    + destruct n; settle_invariant.
    + destruct v; settle_invariant.
    + destruct (capture_button_rendered v _); [|settle_invariant].
      destruct (capture_begin env); settle_invariant.
    + cbn [captures]. destruct (nth_error caps n); settle_invariant.
    + destruct n; settle_invariant.
  - (* one attempt under way *)
    cbn in H2. subst l.
    destruct (H3 eq_refl) as [He Hd]. cbn in He, Hd. subst e d.
    destruct i as [file| |n|n completion|webcam|env|n|n]; cbn [step session].
    + destruct (file_input_rendered v _); [|settle_invariant].
      destruct file; settle_invariant.
    + unfold verify_button_disabled. cbn [image loading].
      destruct img; settle_invariant.
    + destruct x as [ximg [| |]]; destruct n as [|[|n]]; settle_invariant.
    + destruct x as [ximg [| |]]; destruct n as [|[|n]];
        cbn [attempts nth_error]; try solve [settle_invariant].
      rewrite verify_settle_cases. cbn [image extractedData error useWebcam].
      destruct completion as [text|]; [destruct (parse_response text)|];
        settle_invariant.
    + destruct v; settle_invariant.
    + destruct (capture_button_rendered v _); [|settle_invariant].
      destruct (capture_begin env); settle_invariant.
    + cbn [captures]. destruct (nth_error caps n); settle_invariant.
    + destruct x as [ximg [| |]]; destruct n as [|[|n]]; settle_invariant.
Qed.

Lemma run_keeps_invariant (v : variant) (inputs : list input) (w : World) :
  page_invariant w -> page_invariant (fst (run v inputs w)).
Proof.
  revert w. induction inputs as [|i rest IH]; intros w H; [exact H|].
  rewrite run_cons. cbn [fst]. apply IH. apply step_keeps_invariant. exact H.
Qed.

Lemma initial_invariant : page_invariant initial_world.
Proof. unfold page_invariant. cbn. repeat split; auto; lia. Qed.

(** ** Counting requests *)

Lemma nth_error_split {A} (l : list A) (n : nat) (a : A) :
  nth_error l n = Some a -> l = firstn n l ++ a :: skipn (S n) l.
Proof.
  revert n; induction l as [|x l IH]; intros [|n] H; cbn in H; try discriminate.
  - injection H as ->. reflexivity.
  - cbn [firstn skipn app]. f_equal. exact (IH n H).
Qed.

Lemma reading_split (l : list Attempt) (n : nat) (a : Attempt) :
  nth_error l n = Some a ->
  List.length (filter is_reading l)
  = (List.length (filter is_reading (firstn n l ++ skipn (S n) l))
     + if is_reading a then 1 else 0)%nat.
Proof.
  intros H. rewrite (nth_error_split l n a H) at 1.
  rewrite !filter_app, !length_app. cbn [filter].
  destruct (is_reading a); cbn [List.length]; lia.
Qed.

Lemma step_request_budget (v : variant) (i : input) (w : World) :
  (count_network_calls (snd (step v i w)) + reading (fst (step v i w))
   <= (if is_click_verify i then 1 else 0) + reading w)%nat.
Proof.
  unfold reading.
  destruct i as [file| |n|n completion|webcam|env|n|n];
    cbn [step is_click_verify].
  - destruct (file_input_rendered v _); [|cbn; lia].
    destruct file; cbn; lia.
  - destruct (verify_button_disabled _); [cbn; lia|].
    unfold verify_begin. destruct (image (session w)); cbn; [|lia].
    rewrite filter_app, length_app. cbn. lia.
  - destruct (nth_error (attempts w) n) as [[img [| |]]|] eqn:E; try (cbn; lia).
    cbn [fst snd attempts]. unfold replace_nth.
    rewrite (reading_split _ _ _ E).
    rewrite !filter_app, !length_app. cbn. lia.
  - destruct (nth_error (attempts w) n) as [[img [| |]]|] eqn:E; try (cbn; lia).
    cbn [fst snd attempts]. rewrite settle_sends_nothing. unfold remove_nth.
    rewrite (reading_split _ _ _ E). cbn. lia.
  - destruct v; cbn; lia.
  - destruct (capture_button_rendered v _); [|cbn; lia].
    destruct (capture_begin env); cbn; lia.
  - destruct (nth_error (captures w) n); cbn; lia.
  - destruct (nth_error (attempts w) n) as [[img [| |]]|] eqn:E; try (cbn; lia).
    cbn [fst snd attempts]. unfold replace_nth.
    rewrite (reading_split _ _ _ E).
    rewrite !filter_app, !length_app. cbn. lia.
Qed.

Lemma run_request_budget (v : variant) (inputs : list input) (w : World) :
  (count_network_calls (snd (run v inputs w)) + reading (fst (run v inputs w))
   <= List.length (filter is_click_verify inputs) + reading w)%nat.
Proof.
  revert w. induction inputs as [|i rest IH]; intros w; [cbn; lia|].
  rewrite run_cons. cbn [fst snd filter].
  pose proof (step_request_budget v i w) as Hs.
  pose proof (IH (fst (step v i w))) as Hr.
  unfold count_network_calls in *. rewrite filter_app, length_app.
  destruct (is_click_verify i); cbn [List.length]; lia.
Qed.

End InterleavingFacts.

(* ================================================================== *)
(** * Further properties of the component *)
(* ================================================================== *)

Module KycVerifierMore.
Import KycVerifier View Display Interleaving Simulated Samples MoreSamples.
Import JsStringFacts JsStringMoreFacts KycVerifierFacts InterleavingFacts.
Import DisplayFacts.




(** Once the read of the one attempt has failed, no event changes
    that, clears [loading] or sends anything. *)
Lemma step_after_failed_read (v : variant) (i : input) (w : World) (img : File) :
  attempts w = [mkAttempt img ReadFailed] ->
  loading (session w) = true ->
  attempts (fst (step v i w)) = [mkAttempt img ReadFailed]
  /\ loading (session (fst (step v i w))) = true
  /\ count_network_calls (snd (step v i w)) = 0%nat.
Proof.
  intros Ha Hl. destruct w as [[im d l e u] atts caps].
  cbn in Ha, Hl. subst atts l.
  destruct i as [file| |n|n completion|webcam|env|n|n]; cbn [step session].
  - destruct (file_input_rendered v _); [|repeat split].
    destruct file; repeat split.
  - unfold verify_button_disabled. cbn [image loading].
    destruct im; repeat split.
  - destruct n as [|[|n]]; repeat split.
  - destruct n as [|[|n]]; repeat split.
  - destruct v; repeat split.
  - destruct (capture_button_rendered v _); [|repeat split].
    destruct (capture_begin env); repeat split.
  - cbn [captures]. destruct (nth_error caps n); repeat split.
  - destruct n as [|[|n]]; repeat split.
Qed.

Lemma run_after_failed_read (v : variant) (inputs : list input) (w : World)
  (img : File) :
  attempts w = [mkAttempt img ReadFailed] ->
  loading (session w) = true ->
  loading (session (fst (run v inputs w))) = true
  /\ count_network_calls (snd (run v inputs w)) = 0%nat.
Proof.
  revert w. induction inputs as [|i rest IH]; intros w Ha Hl.
  - split; [exact Hl | reflexivity].
  - rewrite run_cons. cbn [fst snd].
    destruct (step_after_failed_read v i w img Ha Hl) as (Ha' & Hl' & Hc).
    destruct (IH _ Ha' Hl') as [Hl2 Hc2]. split; [exact Hl2|].
    unfold count_network_calls in *. rewrite filter_app, length_app, Hc, Hc2.
    reflexivity.
Qed.

(** X2.  When the file read of an attempt fails, the attempt never
    settles: whatever happens on the page afterwards, no request is
    sent, [loading] stays true and the verify button stays disabled. *)
Theorem failed_read_never_settles
  (v : variant) (s : Session) (img : File) (caps : list File) (rest : list input) :
  image s = Some img ->
  loading s = false ->
  let r := run v (ClickVerify :: FileReadFails 0 :: rest) (mkWorld s [] caps) in
  count_network_calls (snd r) = 0%nat
  /\ loading (session (fst r)) = true
  /\ verify_button_disabled (session (fst r)) = true.
Proof.
  intros Himg Hload r. subst r.
  destruct s as [i d l e u]. cbn in Himg, Hload. subst i l.
  rewrite !run_cons.
  assert (S1 : step v ClickVerify (mkWorld (mkSession (Some img) d false e u) [] caps)
               = (mkWorld (mkSession (Some img) VNull true None u)
                    [mkAttempt img ReadingFile] caps, [])) by reflexivity.
  rewrite S1. cbn [fst snd].
  assert (S2 : step v (FileReadFails 0)
                 (mkWorld (mkSession (Some img) VNull true None u)
                    [mkAttempt img ReadingFile] caps)
               = (mkWorld (mkSession (Some img) VNull true None u)
                    [mkAttempt img ReadFailed] caps, [])) by reflexivity.
  rewrite S2. cbn [fst snd app].
  destruct (run_after_failed_read v rest
              (mkWorld (mkSession (Some img) VNull true None u)
                 [mkAttempt img ReadFailed] caps) img eq_refl eq_refl) as [Hl Hc].
  split; [exact Hc|]. split; [exact Hl|].
  unfold verify_button_disabled. rewrite Hl.
  destruct (image _); reflexivity.
Qed.

Lemma failed_read_witness :
  let rest := [ClickVerify; FileLoaded 0; ModelSettles 0 (Some full_response);
               ChooseFile (Some other_file); ClickVerify] in
  let r := run Detailed (ClickVerify :: FileReadFails 0 :: rest)
             (mkWorld session_with_image [] []) in
  image session_with_image = Some sample_file
  /\ loading session_with_image = false
  /\ (count_network_calls (snd r) = 0%nat
      /\ loading (session (fst r)) = true
      /\ verify_button_disabled (session (fst r)) = true).
Proof.
  intros rest r. split; [reflexivity|]. split; [reflexivity|].
  apply (failed_read_never_settles Detailed session_with_image sample_file [] rest);
    reflexivity.
Defined.

(** X3.  With an image held, what an attempt leaves and sends depends
    only on the image, the camera mode and the model's answer: the
    result, the error and the [loading] flag it started from play no
    part. *)
Theorem attempt_forgets_history
  (v : variant) (env : Env) (img : File) (webcam : bool)
  (d d' : value) (l l' : bool) (e e' : option jsstring) :
  handleVerifyClick v env (mkSession (Some img) d l e webcam)
  = handleVerifyClick v env (mkSession (Some img) d' l' e' webcam).
Proof.
  set (s := mkSession (Some img) d l e webcam).
  set (s' := mkSession (Some img) d' l' e' webcam).
  destruct (generateContent env (request_for v img)) as [text|] eqn:G.
  - destruct (parse_response text) as [p|] eqn:P.
    + rewrite (verify_parsed v env s img eq_refl text p G P).
      rewrite (verify_parsed v env s' img eq_refl text p G P). reflexivity.
    + rewrite (verify_malformed v env s img eq_refl text G P).
      rewrite (verify_malformed v env s' img eq_refl text G P). reflexivity.
  - rewrite (verify_rejected v env s img eq_refl G).
    rewrite (verify_rejected v env s' img eq_refl G). reflexivity.
Qed.

(** X4.  After a capture that succeeds, a verification sends the bytes
    of the captured blob, base64-encoded so that they decode back to
    the same bytes, under the type [image/jpeg]. *)
Theorem captured_bytes_are_sent
  (camera env : Env) (s : Session) (src : jsstring) (blob : Blob) :
  getScreenshot camera = Some src ->
  is_empty src = false ->
  fetch_blob camera src = Some blob ->
  let s1 := final_state (captureImage camera s) in
  network_calls (handleVerifyClick Detailed env s1)
  = [NetworkCall
       (mkRequest detailed_prompt
          (mkPart (mkInlineData (Some (Base64.encode (blob_bytes blob)))
                     (js "image/jpeg"))))]
  /\ Base64.decode (Base64.encode (blob_bytes blob)) = Some (blob_bytes blob).
Proof.
  intros H1 H2 H3 s1. subst s1.
  rewrite (captureImage_effect camera s src blob H1 H2 H3).
  split; [|apply Base64Facts.decode_encode].
  cbn [final_state fst snd].
  match goal with
  | |- network_calls (handleVerifyClick _ _ ?s1) = _ =>
      rewrite (verify_sends_one_request Detailed env s1
                 (mkFile (blob_bytes blob) (js "webcam-capture.jpg")
                    (js "image/jpeg")) eq_refl)
  end.
  unfold request_for. rewrite part_of_file; [reflexivity|].
  cbn. intros Hin. repeat (destruct Hin as [Hin|Hin]; [discriminate|]). exact Hin.
Qed.

Lemma captured_bytes_witness :
  getScreenshot env_camera = Some (js "data:image/jpeg;base64,/9j/")
  /\ is_empty (js "data:image/jpeg;base64,/9j/") = false
  /\ fetch_blob env_camera (js "data:image/jpeg;base64,/9j/")
     = Some (mkBlob [xff; xd8; xff] (js "image/jpeg"))
  /\ (let s1 := final_state (captureImage env_camera initial) in
      network_calls (handleVerifyClick Detailed (env_answering None) s1)
      = [NetworkCall
           (mkRequest detailed_prompt
              (mkPart (mkInlineData (Some (Base64.encode [xff; xd8; xff]))
                         (js "image/jpeg"))))]
      /\ Base64.decode (Base64.encode [xff; xd8; xff]) = Some [xff; xd8; xff]).
Proof.
  split; [reflexivity|]. split; [reflexivity|]. split; [reflexivity|].
  apply (captured_bytes_are_sent env_camera (env_answering None) initial
           (js "data:image/jpeg;base64,/9j/")
           (mkBlob [xff; xd8; xff] (js "image/jpeg"))); reflexivity.
Defined.

(** X5.  An empty file is not held back: the request goes out all the
    same, with the empty string as its data. *)
Theorem empty_file_is_sent (v : variant) (env : Env) (s : Session) (img : File) :
  image s = Some img ->
  file_bytes img = [] ->
  ~ In 44 (file_type img) ->
  network_calls (handleVerifyClick v env s)
  = [NetworkCall
       (mkRequest (prompt v) (mkPart (mkInlineData (Some []) (file_type img))))].
Proof.
  intros Himg Hbytes Hty. rewrite (verify_sends_one_request v env s img Himg).
  unfold request_for. rewrite (part_of_file img Hty), Hbytes. reflexivity.
Qed.

Lemma empty_file_witness :
  image (session_holding empty_file) = Some empty_file
  /\ file_bytes empty_file = []
  /\ ~ In 44 (file_type empty_file)
  /\ network_calls (handleVerifyClick Summary (env_answering None)
                      (session_holding empty_file))
     = [NetworkCall
          (mkRequest (prompt Summary)
             (mkPart (mkInlineData (Some []) (file_type empty_file))))].
Proof.
  assert (H : ~ In 44 (file_type empty_file)).
  { cbn. intros Hin. repeat (destruct Hin as [Hin|Hin]; [discriminate|]). exact Hin. }
  split; [reflexivity|]. split; [reflexivity|]. split; [exact H|].
  apply (empty_file_is_sent Summary (env_answering None)
           (session_holding empty_file) empty_file);
    [reflexivity | reflexivity | exact H].
Defined.

Lemma encode_length (bs : list byte) :
  List.length (Base64.encode bs) = (4 * ((List.length bs + 2) / 3))%nat.
Proof.
  induction bs as [|a|a b|a b c rest IH] using Base64Facts.list_ind3;
    try reflexivity.
  cbn [Base64.encode List.length]. rewrite IH.
  replace (S (S (S (List.length rest))) + 2)%nat
    with (1 * 3 + (List.length rest + 2))%nat by lia.
  rewrite Nat.div_add_l by discriminate. lia.
Qed.

(** X7.  The data of a part is four characters for every three bytes
    of the file, the last group rounded up. *)
Theorem data_length (file : File) :
  ~ In 44 (file_type file) ->
  option_map (@List.length code_unit) (data (inlineData (fileToGenerativePart file)))
  = Some (4 * ((List.length (file_bytes file) + 2) / 3))%nat.
Proof.
  intros H. rewrite (part_of_file file H). cbn [inlineData data option_map].
  rewrite encode_length. reflexivity.
Qed.

Lemma data_length_witness :
  ~ In 44 (file_type other_file)
  /\ option_map (@List.length code_unit)
       (data (inlineData (fileToGenerativePart other_file)))
     = Some (4 * ((List.length (file_bytes other_file) + 2) / 3))%nat.
Proof.
  assert (H : ~ In 44 (file_type other_file)).
  { cbn. intros Hin. repeat (destruct Hin as [Hin|Hin]; [discriminate|]). exact Hin. }
  split; [exact H|]. apply (data_length other_file). exact H.
Defined.

Lemma clean_blank (t : jsstring) : is_blank t = true -> clean_response t = [].
Proof.
  intros H. unfold clean_response.
  assert (G : ~ In grave t) by (apply (is_blank_not_in grave t); [reflexivity | exact H]).
  pose proof (remove_all_app_l grave (js "``json") t [] G) as E1.
  rewrite app_nil_r in E1. change (grave :: js "``json") with fence_json in E1.
  change (remove_all fence_json []) with (@nil code_unit) in E1.
  rewrite app_nil_r in E1. rewrite E1.
  pose proof (remove_all_app_l grave [grave; grave] t [] G) as E2.
  rewrite app_nil_r in E2. change (grave :: [grave; grave]) with fence in E2.
  change (remove_all fence []) with (@nil code_unit) in E2.
  rewrite app_nil_r in E2. rewrite E2.
  apply trim_blank_text. exact H.
Qed.

(** X8.  A completion that is blank, or that is a pair of fences
    around a blank, ends the attempt like any unparsable one: failed,
    with the processing message and no result. *)
Theorem blank_completion_fails
  (v : variant) (env : Env) (s : Session) (img : File)
  (w1 w2 t w3 w4 text : jsstring) :
  image s = Some img ->
  is_blank w1 = true -> is_blank w2 = true -> is_blank t = true ->
  is_blank w3 = true -> is_blank w4 = true ->
  text = t \/ text = fenced w1 w2 t w3 w4 ->
  generateContent env (request_for v img) = Some text ->
  let s' := final_state (handleVerifyClick v env s) in
  attempt_of s' = Failed processing_error_message
  /\ extractedData s' = VNull.
Proof.
  intros Himg B1 B2 Bt B3 B4 Htext Hgen s'. subst s'.
  assert (Hclean : clean_response text = []).
  { destruct Htext as [-> | ->].
    - apply clean_blank. exact Bt.
    - rewrite clean_fenced by assumption. apply clean_blank. exact Bt. }
  assert (Hparse : parse_response text = None).
  { unfold parse_response. rewrite Hclean. reflexivity. }
  rewrite (verify_malformed v env s img Himg text Hgen Hparse). repeat split.
Qed.

Lemma blank_completion_witness :
  let text := fenced [] newline (js "  ") newline [] in
  image session_with_image = Some sample_file
  /\ is_blank [] = true /\ is_blank newline = true /\ is_blank (js "  ") = true
  /\ (text = js "  " \/ text = fenced [] newline (js "  ") newline [])
  /\ generateContent (env_answering (Some text)) (request_for Detailed sample_file)
     = Some text
  /\ (let s' := final_state (handleVerifyClick Detailed (env_answering (Some text))
                               session_with_image) in
      attempt_of s' = Failed processing_error_message
      /\ extractedData s' = VNull).
Proof.
  intros text.
  split; [reflexivity|]. split; [reflexivity|]. split; [reflexivity|].
  split; [reflexivity|]. split; [right; reflexivity|]. split; [reflexivity|].
  apply (blank_completion_fails Detailed (env_answering (Some text))
           session_with_image sample_file [] newline (js "  ") newline [] text);
    try reflexivity.
  right. reflexivity.
Defined.

(** X9.  Whatever the completion, the cleaned text holds no run of
    three grave accents: no fence, tagged or not, survives. *)
Theorem cleaned_has_no_fence (text : jsstring) :
  includes fence (clean_response text) = false
  /\ includes fence_json (clean_response text) = false.
Proof.
  assert (H : includes fence3 (clean_response text) = false).
  { unfold clean_response. apply includes_trim. apply no_fence_after_remove. }
  split; [exact H|].
  change fence_json with (fence3 ++ js "json").
  apply includes_shorter. exact H.
Qed.

Lemma clean_fence_free (t : jsstring) :
  includes fence3 t = false ->
  clean_response t = trim t.
Proof.
  intros H. unfold clean_response.
  change fence_json with (fence3 ++ js "json").
  rewrite (remove_all_absent (fence3 ++ js "json") t);
    [|discriminate|apply includes_shorter; exact H].
  change fence with fence3.
  rewrite (remove_all_absent fence3 t); [reflexivity|discriminate|exact H].
Qed.

(** X10.  Cleaning a cleaned text changes nothing. *)
Theorem cleaning_is_idempotent (text : jsstring) :
  clean_response (clean_response text) = clean_response text.
Proof.
  rewrite (clean_fence_free (clean_response text)).
  - unfold clean_response. apply trim_fixed.
  - unfold clean_response. apply includes_trim. apply no_fence_after_remove.
Qed.

(** X11.  The cleaned text neither begins nor ends with a blank. *)
Theorem cleaned_has_no_outer_blank (text : jsstring) :
  (forall c rest, clean_response text = c :: rest -> is_trim_space c = false)
  /\ (forall front c, clean_response text = front ++ [c] -> is_trim_space c = false).
Proof.
  split.
  - intros c rest H.
    pose proof (trimStart_trim (remove_all fence (remove_all fence_json text))) as E.
    fold (clean_response text) in E. rewrite H in E.
    exact (trimStart_head c rest E).
  - intros front c H.
    pose proof (trimEnd_trim (remove_all fence (remove_all fence_json text))) as E.
    fold (clean_response text) in E. rewrite H in E.
    unfold trimEnd in E. rewrite rev_app_distr in E. cbn [rev app] in E.
    apply (f_equal (@rev code_unit)) in E.
    rewrite rev_involutive, rev_app_distr in E. cbn [rev app] in E.
    exact (trimStart_head c (rev front) E).
Qed.

Lemma get_of_non_object (d : value) (key : jsstring) :
  is_object d = false -> get d key = VUndefined.
Proof. destruct d; try reflexivity. discriminate. Qed.

(** X12.  A result that is truthy but not an object (a number, a
    string, [true], an array) still opens the results panel, and every
    row of it shows its fallback. *)
Theorem non_object_shows_fallbacks (v : variant) (s : Session) :
  is_object (extractedData s) = false ->
  ToBoolean (extractedData s) = true ->
  render_results v s = ResultsPanel (result_rows v (VObject []))
  /\ map shown (result_rows v (VObject [])) =
       match v with
       | Detailed =>
           [VString (js "No encontrado"); VString (js "No encontrado");
            VString (js "No encontrada"); VString (js "No encontrada")]
       | Summary => [VString (js "No encontrada"); VString (js "No encontrada")]
       end.
Proof.
  intros Hobj Htrue. split; [|destruct v; reflexivity].
  unfold render_results. rewrite Htrue. f_equal.
  destruct v; unfold result_rows, field_row;
    rewrite !(get_of_non_object _ _ Hobj); reflexivity.
Qed.

Lemma non_object_fallbacks_witness :
  let s := mkSession (Some sample_file) (VNumber (mkNumber false 42 0)) false None
             false in
  is_object (extractedData s) = false
  /\ ToBoolean (extractedData s) = true
  /\ render_results Summary s = ResultsPanel (result_rows Summary (VObject []))
  /\ map shown (result_rows Summary (VObject []))
     = [VString (js "No encontrada"); VString (js "No encontrada")].
Proof.
  intros s. split; [reflexivity|]. split; [reflexivity|].
  apply (non_object_shows_fallbacks Summary s); reflexivity.
Defined.

(** X13.  A completion that parses to a falsy value sets no error and
    opens no results panel.  When the value is [null], [false] or the
    empty string the page displays nothing for it; when it is a zero
    the page displays that number as text. *)
Theorem falsy_completion_display
  (v : variant) (env : Env) (s : Session) (img : File) (text : jsstring) (d : value) :
  image s = Some img ->
  generateContent env (request_for v img) = Some text ->
  parse_response text = Some d ->
  ToBoolean d = false ->
  let s' := final_state (handleVerifyClick v env s) in
  error_view s' = None
  /\ loading s' = false
  /\ display_results v s'
     = Some match d with
            | VNumber n => TextDisplayed [NumberOf n]
            | _ => NothingDisplayed
            end.
Proof.
  intros Himg Hgen Hparse Hfalsy s'. subst s'.
  rewrite (verify_parsed v env s img Himg text d Hgen Hparse).
  unfold display_results, render_results.
  cbn [final_state fst snd extractedData]. rewrite Hfalsy.
  repeat split.
  destruct d as [| |b|n|str|items|props]; try reflexivity; try discriminate.
  cbn [ToBoolean] in Hfalsy. apply negb_false_iff in Hfalsy.
  cbn [render_child]. rewrite Hfalsy. reflexivity.
Qed.

Lemma falsy_completion_witness :
  let env := env_answering (Some (js "0")) in
  image session_with_image = Some sample_file
  /\ parse_response (js "0") = Some (VNumber (mkNumber false 0 0))
  /\ ToBoolean (VNumber (mkNumber false 0 0)) = false
  /\ (let s' := final_state (handleVerifyClick Detailed env session_with_image) in
      error_view s' = None
      /\ loading s' = false
      /\ display_results Detailed s'
         = Some (TextDisplayed [NumberOf (mkNumber false 0 0)])).
Proof.
  intros env. split; [reflexivity|]. split; [vm_compute; reflexivity|].
  split; [reflexivity|].
  apply (falsy_completion_display Detailed env session_with_image sample_file
           (js "0") (VNumber (mkNumber false 0 0))).
  - reflexivity.
  - reflexivity.
  - vm_compute. reflexivity.
  - reflexivity.
Defined.

Lemma own_property_last_member (k : jsstring) (fields : list (jsstring * jsstring)) :
  own_property k (map (fun m => (fst m, VString (snd m))) fields)
  = option_map VString (last_member k fields).
Proof.
  induction fields as [|[k' x] fields IH]; [reflexivity|].
  cbn [map own_property last_member fst snd]. rewrite IH.
  destruct (last_member k fields); cbn [option_map]; [reflexivity|].
  destruct (JsString.eqb k k'); reflexivity.
Qed.

(** X14.  [JSON.parse] accepts the compact text of an object whose
    keys and values are strings without quotation marks, backslashes
    and control characters, and reading a key of the parsed object
    gives the string of the last member of the text with that key. *)
Theorem plain_object_reads_back
  (fields : list (jsstring * jsstring)) (k x : jsstring) :
  forallb plain_member fields = true ->
  last_member k fields = Some x ->
  match JSON.parse (object_text fields) with
  | Some d => is_object d = true /\ get d k = VString x
  | None => False
  end.
Proof.
  intros Hplain Hlast.
  rewrite (SimulatedFacts.parse_object_text fields Hplain).
  unfold object_value, get. rewrite own_property_last_member, Hlast.
  split; reflexivity.
Qed.

Lemma plain_object_witness :
  let fields := [(js "nombre", js "Juan"); (js "edad", js "30");
                 (js "nombre", js "Juana")] in
  forallb plain_member fields = true
  /\ last_member (js "nombre") fields = Some (js "Juana")
  /\ match JSON.parse (object_text fields) with
     | Some d => is_object d = true /\ get d (js "nombre") = VString (js "Juana")
     | None => False
     end.
Proof.
  intros fields. split; [reflexivity|]. split; [reflexivity|].
  apply (plain_object_reads_back fields (js "nombre") (js "Juana")); reflexivity.
Defined.

Lemma clean_object_text (fields : list (jsstring * jsstring)) :
  includes fence3 (object_text fields) = false ->
  clean_response (object_text fields) = object_text fields.
Proof.
  intros H. rewrite (clean_fence_free _ H).
  unfold object_text. cbn [app]. apply trim_between; reflexivity.
Qed.

(** X15.  When the completion is the object the detailed prompt asks
    for, bare or between fences, with plain strings and no run of three
    grave accents in it, the attempt succeeds with exactly those four
    strings, and each row shows its string as received, or its
    fallback when the string is empty. *)
Theorem detailed_response_is_shown
  (env : Env) (s : Session) (img : File)
  (nombre apellido nacionalidad fechaNacimiento w1 w2 w3 w4 text : jsstring) :
  let fields := detailed_fields nombre apellido nacionalidad fechaNacimiento in
  image s = Some img ->
  forallb plain_member fields = true ->
  includes fence3 (object_text fields) = false ->
  is_blank w1 = true -> is_blank w2 = true ->
  is_blank w3 = true -> is_blank w4 = true ->
  text = object_text fields \/ text = fenced w1 w2 (object_text fields) w3 w4 ->
  generateContent env (request_for Detailed img) = Some text ->
  let s' := final_state (handleVerifyClick Detailed env s) in
  attempt_of s' = Succeeded (object_value fields)
  /\ error s' = None
  /\ map shown (result_rows Detailed (extractedData s'))
     = [ js_or (VString nombre) (VString (js "No encontrado"));
         js_or (VString apellido) (VString (js "No encontrado"));
         js_or (VString nacionalidad) (VString (js "No encontrada"));
         js_or (VString fechaNacimiento) (VString (js "No encontrada")) ].
Proof.
  intros fields Himg Hplain Hfence B1 B2 B3 B4 Htext Hgen s'. subst s'.
  assert (Hclean : clean_response text = object_text fields).
  { destruct Htext as [-> | ->].
    - apply clean_object_text. exact Hfence.
    - rewrite clean_fenced by assumption. apply clean_object_text. exact Hfence. }
  assert (Hparse : parse_response text = Some (object_value fields)).
  { unfold parse_response. rewrite Hclean.
    apply SimulatedFacts.parse_object_text. exact Hplain. }
  rewrite (verify_parsed Detailed env s img Himg text _ Hgen Hparse).
  repeat split.
Qed.

Lemma detailed_response_witness :
  let fields := detailed_fields (js "Juan") (js "Perez") (js "AR") (js "1990-05-15") in
  let text := fenced [] newline (object_text fields) newline [] in
  let env := env_answering (Some text) in
  image session_with_image = Some sample_file
  /\ forallb plain_member fields = true
  /\ includes fence3 (object_text fields) = false
  /\ is_blank [] = true /\ is_blank newline = true
  /\ generateContent env (request_for Detailed sample_file) = Some text
  /\ (let s' := final_state (handleVerifyClick Detailed env session_with_image) in
      attempt_of s' = Succeeded (object_value fields)
      /\ error s' = None
      /\ map shown (result_rows Detailed (extractedData s'))
         = [ js_or (VString (js "Juan")) (VString (js "No encontrado"));
             js_or (VString (js "Perez")) (VString (js "No encontrado"));
             js_or (VString (js "AR")) (VString (js "No encontrada"));
             js_or (VString (js "1990-05-15")) (VString (js "No encontrada")) ]).
Proof.
  intros fields text env.
  split; [reflexivity|]. split; [reflexivity|]. split; [reflexivity|].
  split; [reflexivity|]. split; [reflexivity|]. split; [reflexivity|].
  apply (detailed_response_is_shown env session_with_image sample_file
           (js "Juan") (js "Perez") (js "AR") (js "1990-05-15")
           [] newline newline [] text);
    try reflexivity.
  right. reflexivity.
Defined.

(** X16.  Taken in time, with nothing in between, one attempt is the
    click, the end of the file read and the model's answer; the three
    events leave the session and the trace that [handleVerifyClick]
    leaves when run in one piece. *)
Theorem attempt_in_time_is_handler
  (v : variant) (env : Env) (s : Session) (img : File) (caps : list File) :
  image s = Some img ->
  loading s = false ->
  run v [ClickVerify; FileLoaded 0;
         ModelSettles 0 (generateContent env (request_for v img))]
      (mkWorld s [] caps)
  = (mkWorld (final_state (handleVerifyClick v env s)) [] caps,
     trace (handleVerifyClick v env s)).
Proof.
  intros Himg Hload. destruct s as [i d l e u]. cbn in Himg, Hload. subst i l.
  set (s := mkSession (Some img) d false e u).
  rewrite !run_cons.
  assert (S1 : step v ClickVerify (mkWorld s [] caps)
               = (mkWorld (mkSession (Some img) VNull true None u)
                    [mkAttempt img ReadingFile] caps, [])) by reflexivity.
  rewrite S1. cbn [fst snd].
  assert (S2 : step v (FileLoaded 0)
                 (mkWorld (mkSession (Some img) VNull true None u)
                    [mkAttempt img ReadingFile] caps)
               = (mkWorld (mkSession (Some img) VNull true None u)
                    [mkAttempt img AwaitingModel] caps,
                  [NetworkCall (request_for v img)])) by reflexivity.
  rewrite S2. cbn [fst snd step session attempts nth_error captures run].
  rewrite verify_settle_cases. cbn [image extractedData error useWebcam].
  destruct (generateContent env (request_for v img)) as [text|] eqn:G.
  - destruct (parse_response text) as [p|] eqn:P.
    + rewrite (verify_parsed v env s img eq_refl text p G P). reflexivity.
    + rewrite (verify_malformed v env s img eq_refl text G P). reflexivity.
  - rewrite (verify_rejected v env s img eq_refl G). reflexivity.
Qed.

Lemma attempt_in_time_witness :
  let env := env_answering (Some full_response) in
  image session_with_image = Some sample_file
  /\ loading session_with_image = false
  /\ run Detailed
       [ClickVerify; FileLoaded 0;
        ModelSettles 0 (generateContent env (request_for Detailed sample_file))]
       (mkWorld session_with_image [] [])
     = (mkWorld (final_state (handleVerifyClick Detailed env session_with_image))
          [] [],
        trace (handleVerifyClick Detailed env session_with_image)).
Proof.
  intros env. split; [reflexivity|]. split; [reflexivity|].
  apply (attempt_in_time_is_handler Detailed env session_with_image sample_file []);
    reflexivity.
Defined.

(** X17.  Likewise a capture in camera mode: the click on the capture
    button and the end of its [fetch] leave what [captureImage] leaves,
    whether the screenshot succeeds or not. *)
Theorem capture_in_time_is_handler
  (env : Env) (s : Session) (atts : list Attempt) :
  useWebcam s = true ->
  run Detailed [ClickCapture env; CaptureSettles 0] (mkWorld s atts [])
  = (mkWorld (final_state (captureImage env s)) atts [],
     trace (captureImage env s)).
Proof.
  intros Hcam. rewrite !run_cons. cbn [step session].
  unfold capture_button_rendered, rendered_area. rewrite Hcam. cbn [negb].
  unfold capture_begin, captureImage.
  destruct (getScreenshot env) as [src|]; [|destruct s; reflexivity].
  destruct (is_empty src); [destruct s; reflexivity|].
  destruct (fetch_blob env src); destruct s; reflexivity.
Qed.

Lemma capture_in_time_witness :
  let s := mkSession None VNull false None true in
  useWebcam s = true
  /\ run Detailed [ClickCapture env_camera; CaptureSettles 0] (mkWorld s [] [])
     = (mkWorld (final_state (captureImage env_camera s)) [] [],
        trace (captureImage env_camera s)).
Proof.
  intros s. split; [reflexivity|].
  apply (capture_in_time_is_handler env_camera s []). reflexivity.
Defined.

(** X18.  Whatever the user and the browser do, starting from the
    initial page, at most one attempt is under way at any time, and
    [loading] is true exactly while one is. *)
Theorem one_attempt_at_a_time (v : variant) (inputs : list input) :
  let w := fst (run v inputs initial_world) in
  (List.length (attempts w) <= 1)%nat
  /\ loading (session w) = negb (no_attempt w).
Proof.
  intros w. subst w.
  destruct (run_keeps_invariant v inputs initial_world initial_invariant)
    as (H1 & H2 & _).
  split; assumption.
Qed.

(** X19.  On the page, an error and a result are never held together;
    the only error message ever held is the processing message, so the
    message that asks for an image is never shown: with no image the
    verify button is disabled.  And before any image is held, no
    result and no error are. *)
Theorem error_excludes_result (v : variant) (inputs : list input) :
  let s := session (fst (run v inputs initial_world)) in
  (error s = None
   \/ (error s = Some processing_error_message /\ extractedData s = VNull))
  /\ error s <> Some no_image_message
  /\ match image s with
     | Some _ => True
     | None => extractedData s = VNull /\ error s = None
     end.
Proof.
  intros s. subst s.
  destruct (run_keeps_invariant v inputs initial_world initial_invariant)
    as (_ & _ & _ & H4 & H5).
  split; [exact H4|]. split.
  - destruct H4 as [H4 | [H4 _]]; rewrite H4; discriminate.
  - destruct (image (session (fst (run v inputs initial_world)))); [exact I|].
    destruct (H5 eq_refl) as (_ & Hd & He). split; assumption.
Qed.

(** X20.  The page never sends more requests than the verify button
    was clicked. *)
Theorem requests_bounded_by_clicks (v : variant) (inputs : list input) :
  (count_network_calls (snd (run v inputs initial_world))
   <= List.length (filter is_click_verify inputs))%nat.
Proof.
  pose proof (run_request_budget v inputs initial_world) as H.
  change (reading initial_world) with 0%nat in H. lia.
Qed.

(** X21.  Choosing another file while an attempt is under way does not
    cancel it: the request still carries the file held at the click,
    and its result is stored beside the newer file. *)
Theorem other_file_does_not_cancel
  (v : variant) (f g : File) (text : jsstring) (d : value) :
  parse_response text = Some d ->
  run v [ChooseFile (Some f); ClickVerify; ChooseFile (Some g); FileLoaded 0;
         ModelSettles 0 (Some text)] initial_world
  = (mkWorld (mkSession (Some g) d false None false) [] [],
     [NetworkCall (request_for v f)]).
Proof.
  intros Hparse. rewrite !run_cons.
  assert (S1 : step v (ChooseFile (Some f)) initial_world
               = (mkWorld (mkSession (Some f) VNull false None false) [] [], []))
    by (destruct v; reflexivity).
  rewrite S1. cbn [fst snd].
  assert (S2 : step v ClickVerify
                 (mkWorld (mkSession (Some f) VNull false None false) [] [])
               = (mkWorld (mkSession (Some f) VNull true None false)
                    [mkAttempt f ReadingFile] [], [])) by reflexivity.
  rewrite S2. cbn [fst snd].
  assert (S3 : step v (ChooseFile (Some g))
                 (mkWorld (mkSession (Some f) VNull true None false)
                    [mkAttempt f ReadingFile] [])
               = (mkWorld (mkSession (Some g) VNull true None false)
                    [mkAttempt f ReadingFile] [], []))
    by (destruct v; reflexivity).
  rewrite S3. cbn [fst snd].
  assert (S4 : step v (FileLoaded 0)
                 (mkWorld (mkSession (Some g) VNull true None false)
                    [mkAttempt f ReadingFile] [])
               = (mkWorld (mkSession (Some g) VNull true None false)
                    [mkAttempt f AwaitingModel] [],
                  [NetworkCall (request_for v f)])) by reflexivity.
  rewrite S4. cbn [fst snd step session attempts nth_error captures run].
  rewrite verify_settle_cases, Hparse. reflexivity.
Qed.

Lemma other_file_witness :
  parse_response full_response = Some (object_of full_response)
  /\ run Detailed
       [ChooseFile (Some sample_file); ClickVerify; ChooseFile (Some other_file);
        FileLoaded 0; ModelSettles 0 (Some full_response)] initial_world
     = (mkWorld (mkSession (Some other_file) (object_of full_response) false None
                   false) [] [],
        [NetworkCall (request_for Detailed sample_file)]).
Proof.
  assert (H : parse_response full_response = Some (object_of full_response))
    by (vm_compute; reflexivity).
  split; [exact H|].
  apply (other_file_does_not_cancel Detailed sample_file other_file full_response).
  exact H.
Defined.

(** X22.  In the TypeScript component the verify button shows the
    pointer cursor exactly when it is enabled; in the JSX component it
    shows the pointer cursor always, disabled or not. *)
Theorem cursor_follows_disabled (s : Session) :
  JsString.eqb (verify_button_cursor Detailed s) (js "pointer")
  = negb (verify_button_disabled s)
  /\ verify_button_cursor Summary s = js "pointer".
Proof.
  split; [|reflexivity].
  unfold verify_button_cursor, verify_button_disabled.
  destruct (image s); [|reflexivity]. destruct (loading s); reflexivity.
Qed.

(** X23.  A capture that succeeds leaves camera mode: the upload area
    is rendered again and the preview shows the captured file. *)
Theorem capture_shows_preview
  (env : Env) (s : Session) (src : jsstring) (blob : Blob) :
  getScreenshot env = Some src ->
  is_empty src = false ->
  fetch_blob env src = Some blob ->
  let s' := final_state (captureImage env s) in
  rendered_area Detailed s' = UploadArea
  /\ preview Detailed s'
     = Some (mkFile (blob_bytes blob) (js "webcam-capture.jpg") (js "image/jpeg")).
Proof.
  intros H1 H2 H3 s'. subst s'.
  rewrite (captureImage_effect env s src blob H1 H2 H3). split; reflexivity.
Qed.

Lemma capture_preview_witness :
  let s := mkSession None VNull false None true in
  getScreenshot env_camera = Some (js "data:image/jpeg;base64,/9j/")
  /\ fetch_blob env_camera (js "data:image/jpeg;base64,/9j/")
     = Some (mkBlob [xff; xd8; xff] (js "image/jpeg"))
  /\ preview Detailed s = None
  /\ (let s' := final_state (captureImage env_camera s) in
      rendered_area Detailed s' = UploadArea
      /\ preview Detailed s'
         = Some (mkFile [xff; xd8; xff] (js "webcam-capture.jpg") (js "image/jpeg"))).
Proof.
  intros s. split; [reflexivity|]. split; [reflexivity|]. split; [reflexivity|].
  apply (capture_shows_preview env_camera s (js "data:image/jpeg;base64,/9j/")
           (mkBlob [xff; xd8; xff] (js "image/jpeg"))); reflexivity.
Defined.

Lemma step_keeps_image (v : variant) (i : input) (w : World) :
  image (session w) <> None -> image (session (fst (step v i w))) <> None.
Proof.
  intros H.
  destruct i as [file| |n|n completion|webcam|env|n|n]; cbn [step].
  - destruct (file_input_rendered v _); [|exact H].
    destruct file; [discriminate | exact H].
  - destruct (verify_button_disabled _); [exact H|].
    unfold verify_begin. destruct (image (session w)) eqn:E;
      [cbn; congruence | congruence].
  - destruct (nth_error (attempts w) n) as [[img [| |]]|]; exact H.
  - destruct (nth_error (attempts w) n) as [[img [| |]]|]; try exact H.
    cbn [fst session]. rewrite verify_settle_cases.
    destruct completion as [text|]; [destruct (parse_response text)|]; exact H.
  - destruct v; exact H.
  - destruct (capture_button_rendered v _); [|exact H].
    destruct (capture_begin env); exact H.
  - destruct (nth_error (captures w) n); [discriminate | exact H].
  - destruct (nth_error (attempts w) n) as [[img [| |]]|]; exact H.
Qed.

(** X24.  Once an image is held, one is held ever after: no event of
    the page clears it. *)
Theorem image_is_never_lost (v : variant) (inputs : list input) (w : World) :
  image (session w) <> None ->
  image (session (fst (run v inputs w))) <> None.
Proof.
  revert w. induction inputs as [|i rest IH]; intros w H; [exact H|].
  rewrite run_cons. cbn [fst]. apply IH. apply step_keeps_image. exact H.
Qed.

Lemma image_is_never_lost_witness :
  let inputs := [ChooseFile None; ClickVerify; ClickSwitch true; FileLoaded 0;
                 ModelSettles 0 None; ClickSwitch false] in
  image (session (world_holding sample_file)) <> None
  /\ image (session (fst (run Detailed inputs (world_holding sample_file)))) <> None.
Proof.
  intros inputs.
  assert (H : image (session (world_holding sample_file)) <> None) by discriminate.
  split; [exact H|].
  apply (image_is_never_lost Detailed inputs (world_holding sample_file)). exact H.
Defined.

(** X25.  When an expected field of a truthy result is itself an
    object, the field is truthy, so the row hands the object to React
    as a child and the render throws: nothing of the panel is
    displayed. *)
Theorem object_field_breaks_render
  (v : variant) (s : Session) (f : field) (props : list (jsstring * value)) :
  In f (expected_fields v) ->
  ToBoolean (extractedData s) = true ->
  get (extractedData s) (js (field_key f)) = VObject props ->
  display_results v s = None.
Proof.
  intros Hin Htrue Hget. unfold display_results, render_results. rewrite Htrue.
  rewrite result_rows_expected.
  rewrite (display_rows_throw _ (row_of (extractedData s) f)); [reflexivity| |].
  - apply in_map. exact Hin.
  - unfold display_row, row_of, field_row, js_or. rewrite Hget. reflexivity.
Qed.

Lemma object_field_witness :
  let s := final_state (handleVerifyClick Detailed
                          (env_answering (Some nested_response))
                          session_with_image) in
  let f := mkField "Nombre:" "nombre" "No encontrado" in
  In f (expected_fields Detailed)
  /\ ToBoolean (extractedData s) = true
  /\ get (extractedData s) (js (field_key f))
     = VObject [(js "a", VNumber (mkNumber false 1 0))]
  /\ attempt_of s = Succeeded (extractedData s)
  /\ display_results Detailed s = None.
Proof.
  intros s f.
  assert (Hin : In f (expected_fields Detailed)) by (left; reflexivity).
  split; [exact Hin|]. split; [vm_compute; reflexivity|].
  split; [vm_compute; reflexivity|]. split; [vm_compute; reflexivity|].
  apply (object_field_breaks_render Detailed s f
           [(js "a", VNumber (mkNumber false 1 0))]);
    [exact Hin | vm_compute; reflexivity | vm_compute; reflexivity].
Defined.

End KycVerifierMore.
